(** * Verification of the scripting customization engine of Argo CD
    (util/lua/lua.go): health-script resolution, result interpretation of
    health, action discovery and action execution, and the cleaning pass
    that undoes the empty-object/empty-array confusion of the structural
    encoder. *)

From stdpp Require Import base list strings sorting pretty.
From Stdlib Require Import Strings.String Strings.Ascii.

Open Scope string_scope.
Set Default Proof Using "Type".

(* ------------------------------------------------------------------ *)
(** ** Host values: the JSON-like [any] model of unstructured objects *)

(** A decoded JSON value as the Go code sees it through [any]:
    [map[string]any] is [VObject], [[]any] is [VArray].  Maps are kept as
    association lists with pairwise distinct keys (a Go map); slices as
    cons lists. *)
Inductive value : Type :=
| VNull
| VBool (b : bool)
| VNum (n : Z)
| VStr (s : string)
| VArray (a : array)
| VObject (m : object)
with array : Type :=
| ANil
| ACons (v : value) (rest : array)
with object : Type :=
| ONil
| OCons (k : string) (v : value) (rest : object).

(** [m[key]] with the comma-ok idiom. *)
Fixpoint obj_lookup (key : string) (m : object) : option value :=
  match m with
  | ONil => None
  | OCons k v rest => if String.eqb k key then Some v else obj_lookup key rest
  end.

(** [m[key] = v] for a key already present in [m]; a fresh key is added
    at the end. *)
Fixpoint obj_set (key : string) (v : value) (m : object) : object :=
  match m with
  | ONil => OCons key v ONil
  | OCons k w rest =>
      if String.eqb k key then OCons k v rest else OCons k w (obj_set key v rest)
  end.

Fixpoint array_len (a : array) : nat :=
  match a with
  | ANil => 0
  | ACons _ rest => S (array_len rest)
  end.

(** Does the slice hold a map or a slice?  Those are the elements for
    which [cleanReturnedArray] reads [obj[i]]. *)
Fixpoint array_has_aggregate (a : array) : bool :=
  match a with
  | ANil => false
  | ACons (VObject _) _ | ACons (VArray _) _ => true
  | ACons _ rest => array_has_aggregate rest
  end.

(* ------------------------------------------------------------------ *)
(** ** The cleaning pass: cleanReturnedObj and cleanReturnedArray *)

(** [cleanReturnedObj newObj obj] (lua.go, lines 274-303).  The result is
    [None] when the Go code panics.  [mapToReturn] is [newObj] itself,
    updated key by key while iterating over the keys of [obj]; the keys are
    distinct, so the order of the updates does not matter.  A case of the
    type switch that does not assign leaves [newObj] unchanged.

    [cleanReturnedArray newObj obj] (lines 307-324) ranges over the
    indices of [newObj] and reads [obj[i]] for every element that is a map
    or a slice: an index past the end of [obj] is a runtime panic (index
    out of range), modelled by [None]. *)
Fixpoint cleanReturnedObj (newObj : object) (obj : object) {struct obj}
  : option object :=
  match obj with
  | ONil => Some newObj
  | OCons key oldValueInterface rest =>
      match obj_lookup key newObj with
      | None => cleanReturnedObj newObj rest
      | Some newValueInterface =>
          let mapToReturn :=
            match newValueInterface, oldValueInterface with
            | VObject newValue, VObject oldValue =>
                match cleanReturnedObj newValue oldValue with
                | Some convertedMap => Some (obj_set key (VObject convertedMap) newObj)
                | None => None
                end
            | VArray newValue, VObject oldValue =>
                if Nat.eqb (array_len newValue) 0
                then Some (obj_set key (VObject oldValue) newObj)
                else Some newObj
            | VArray newValue, VArray oldValue =>
                match cleanReturnedArray newValue oldValue with
                | Some newArray => Some (obj_set key (VArray newArray) newObj)
                | None => None
                end
            | _, _ => Some newObj
            end in
          match mapToReturn with
          | Some newObj' => cleanReturnedObj newObj' rest
          | None => None
          end
      end
  end
with cleanReturnedArray (newObj : array) (obj : array) {struct obj}
  : option array :=
  match obj with
  | ANil =>
      (* every remaining index is past the end of [obj] *)
      if array_has_aggregate newObj then None else Some newObj
  | ACons oldElem obj' =>
      match newObj with
      | ANil => Some ANil
      | ACons newElem newObj' =>
          let elem :=
            match newElem, oldElem with
            | VObject newValue, VObject oldValue =>
                match cleanReturnedObj newValue oldValue with
                | Some convertedMap => Some (VObject convertedMap)
                | None => None
                end
            | VArray newValue, VArray oldValue =>
                match cleanReturnedArray newValue oldValue with
                | Some convertedMap => Some (VArray convertedMap)
                | None => None
                end
            | _, _ => Some newElem
            end in
          match elem, cleanReturnedArray newObj' obj' with
          | Some e, Some rest => Some (ACons e rest)
          | _, _ => None
          end
      end
  end.

(** Modelled from the spec: the structural encoder of the interpreter
    library (layeh.com/gopher-json) seen through the round trip of an
    unchanged object: a Lua table cannot tell an empty object from an
    empty array, and the encoder renders every empty table as [[]]. *)
Fixpoint luaRoundTrip (v : value) : value :=
  match v with
  | VObject ONil => VArray ANil
  | VObject m => VObject (luaRoundTripObj m)
  | VArray a => VArray (luaRoundTripArr a)
  | _ => v
  end
with luaRoundTripObj (m : object) : object :=
  match m with
  | ONil => ONil
  | OCons k v rest => OCons k (luaRoundTrip v) (luaRoundTripObj rest)
  end
with luaRoundTripArr (a : array) : array :=
  match a with
  | ANil => ANil
  | ACons v rest => ACons (luaRoundTrip v) (luaRoundTripArr rest)
  end.


(* ------------------------------------------------------------------ *)
(** ** Go errors, results and the JSON text of a value *)

(** The errors the engine returns, and a runtime panic (which is not a
    returned error but ends the call all the same). *)
Inductive goerror : Type :=
| Errorf (msg : string)                         (* errors.New, fmt.Errorf *)
| Wrapped (prefix : string) (inner : goerror)    (* fmt.Errorf("...: %w") *)
| UnmarshalTypeError (Value : string) (GoType : string) (Field : string)
| ScriptError (msg : string)                    (* from the interpreter *)
| GoPanic (msg : string).

#[global] Instance goerror_eq_dec : EqDecision goerror.
Proof. solve_decision. Defined.

(** [(T, error)]: exactly one of the two is meaningful. *)
Inductive result (A : Type) : Type :=
| Ok (a : A)
| Err (e : goerror).
Arguments Ok {A} a.
Arguments Err {A} e.

Definition bind {A B} (r : result A) (f : A -> result B) : result B :=
  match r with Ok a => f a | Err e => Err e end.

(** The kind of a JSON value, as encoding/json reports it in an
    [UnmarshalTypeError]. *)
Definition json_kind (v : value) : string :=
  match v with
  | VNull => "null"
  | VBool _ => "bool"
  | VNum _ => "number"
  | VStr _ => "string"
  | VArray _ => "array"
  | VObject _ => "object"
  end.

Definition dq : string := String (ascii_of_nat 34) EmptyString.

(** The JSON text of a value (keys in the order of the map; string
    escaping is left out, no claim depends on it). *)
Fixpoint jsonEncode (v : value) : string :=
  match v with
  | VNull => "null"
  | VBool true => "true"
  | VBool false => "false"
  | VNum n => pretty n
  | VStr s => dq +:+ s +:+ dq
  | VArray a => "[" +:+ jsonEncodeArr a +:+ "]"
  | VObject m => "{" +:+ jsonEncodeObj m +:+ "}"
  end
with jsonEncodeArr (a : array) : string :=
  match a with
  | ANil => ""
  | ACons v ANil => jsonEncode v
  | ACons v rest => jsonEncode v +:+ "," +:+ jsonEncodeArr rest
  end
with jsonEncodeObj (m : object) : string :=
  match m with
  | ONil => ""
  | OCons k v ONil => dq +:+ k +:+ dq +:+ ":" +:+ jsonEncode v
  | OCons k v rest =>
      dq +:+ k +:+ dq +:+ ":" +:+ jsonEncode v +:+ "," +:+ jsonEncodeObj rest
  end.

(* ------------------------------------------------------------------ *)
(** ** Values of the interpreter (gopher-lua) *)

(** A table is represented by what [luajson.Encode] makes of it: the
    decoded JSON value of the encoded bytes, or the encoder's error. *)
Inductive tableEncoding : Type :=
| Encoded (v : value)
| EncodeError (msg : string).

Inductive LValue : Type :=
| LNil
| LBool (b : bool)
| LNumber (n : Z)
| LString (s : string)
| LFunction
| LUserData
| LThread
| LChannel
| LTable (t : tableEncoding).

(** [returnValue.Type().String()] *)
Definition lvalueTypeName (v : LValue) : string :=
  match v with
  | LNil => "nil"
  | LBool _ => "boolean"
  | LNumber _ => "number"
  | LString _ => "string"
  | LFunction => "function"
  | LUserData => "userdata"
  | LThread => "thread"
  | LChannel => "channel"
  | LTable _ => "table"
  end.

(** Outcome of [runLua]: the interpreter error, or the value on top of
    the stack after the script ran. *)
Inductive runResult : Type :=
| RunErr (e : goerror)
| RunOk (top : LValue).

(** [fmt.Errorf(incorrectReturnType, expected, actual)] *)
Definition incorrectReturnType (expected actual : string) : goerror :=
  Errorf ("expect " +:+ expected +:+ " output from Lua script, not " +:+ actual).

Definition invalidHealthStatus : string := "Lua returned an invalid health status".

(* ------------------------------------------------------------------ *)
(** ** Health status and its JSON decoding *)

Definition HealthStatusCode := string.
Definition HealthStatusUnknown : HealthStatusCode := "Unknown".
Definition HealthStatusProgressing : HealthStatusCode := "Progressing".
Definition HealthStatusHealthy : HealthStatusCode := "Healthy".
Definition HealthStatusSuspended : HealthStatusCode := "Suspended".
Definition HealthStatusDegraded : HealthStatusCode := "Degraded".
Definition HealthStatusMissing : HealthStatusCode := "Missing".

Record HealthStatus : Type := mkHealthStatus {
  Status : HealthStatusCode;   (* json:"status,omitempty" *)
  Message : string             (* json:"message,omitempty" *)
}.

Definition zeroHealthStatus : HealthStatus := mkHealthStatus "" "".

(** isValidHealthStatusCode (lines 585-591) *)
Definition isValidHealthStatusCode (statusCode : HealthStatusCode) : bool :=
  if decide (statusCode = HealthStatusUnknown) then true
  else if decide (statusCode = HealthStatusProgressing) then true
  else if decide (statusCode = HealthStatusSuspended) then true
  else if decide (statusCode = HealthStatusHealthy) then true
  else if decide (statusCode = HealthStatusDegraded) then true
  else if decide (statusCode = HealthStatusMissing) then true
  else false.

Definition ascii_lower (c : ascii) : ascii :=
  let n := nat_of_ascii c in
  if (Nat.leb 65 n && Nat.leb n 90)%bool then ascii_of_nat (n + 32) else c.

Fixpoint string_lower (s : string) : string :=
  match s with
  | EmptyString => EmptyString
  | String c rest => String (ascii_lower c) (string_lower rest)
  end.

(** encoding/json matches an object key to a struct field by its JSON name,
    ignoring ASCII case. *)
Definition json_field_is (name key : string) : bool :=
  String.eqb (string_lower key) name.

(** Decoding one JSON value into a Go string field: [null] leaves the
    field alone, any kind other than a string is an [UnmarshalTypeError]
    that encoding/json records and keeps going with. *)
Definition decodeStringField (goType field : string) (cur : string) (v : value)
  : string * option goerror :=
  match v with
  | VStr s => (s, None)
  | VNull => (cur, None)
  | _ => (cur, Some (UnmarshalTypeError (json_kind v) goType field))
  end.

(** [json.Unmarshal(jsonBytes, healthStatus)] on the decoded JSON value:
    encoding/json decodes every field it can, remembers the first type
    error and returns it at the end. *)
Fixpoint unmarshalHealthFields (m : object) (hs : HealthStatus) (saved : option goerror)
  : HealthStatus * option goerror :=
  match m with
  | ONil => (hs, saved)
  | OCons k v rest =>
      let '(hs', err) :=
        if json_field_is "status" k then
          let '(s, e) := decodeStringField "health.HealthStatusCode" "status" (Status hs) v in
          (mkHealthStatus s (Message hs), e)
        else if json_field_is "message" k then
          let '(s, e) := decodeStringField "string" "message" (Message hs) v in
          (mkHealthStatus (Status hs) s, e)
        else (hs, None) in
      let saved' := match saved with Some _ => saved | None => err end in
      unmarshalHealthFields rest hs' saved'
  end.

Definition unmarshalHealthStatus (v : value) : result HealthStatus :=
  match v with
  | VNull => Ok zeroHealthStatus
  | VObject m =>
      match unmarshalHealthFields m zeroHealthStatus None with
      | (hs, None) => Ok hs
      | (_, Some e) => Err e
      end
  | _ => Err (UnmarshalTypeError (json_kind v) "health.HealthStatus" "")
  end.

(** [errors.As(err, &typeError)] with [typeError : *json.UnmarshalTypeError]:
    true for any [*json.UnmarshalTypeError] in the chain, whatever its
    fields hold (errors.As overwrites the target, it does not compare). *)
Fixpoint errorsAsUnmarshalTypeError (err : goerror) : bool :=
  match err with
  | UnmarshalTypeError _ _ _ => true
  | Wrapped _ inner => errorsAsUnmarshalTypeError inner
  | _ => false
  end.

(* ------------------------------------------------------------------ *)
(** ** Resource overrides, the VM and resource keys *)

(** The fields of appv1.ResourceOverride the engine reads. *)
Record ResourceOverride : Type := mkResourceOverride {
  HealthLua : string;
  UseOpenLibs : bool;
  Actions : string            (* YAML text of the actions block *)
}.

(** A Go [map[string]ResourceOverride]: an association list with distinct
    keys; its order is the (unspecified) iteration order. *)
Definition overrides := list (string * ResourceOverride).

Fixpoint assoc_lookup {A} (key : string) (m : list (string * A)) : option A :=
  match m with
  | [] => None
  | (k, v) :: rest => if String.eqb k key then Some v else assoc_lookup key rest
  end.

Record VM : Type := mkVM {
  ResourceOverrides : overrides;
  VMUseOpenLibs : bool
}.

Record GroupVersionKind : Type := mkGVK {
  Group : string;
  Version : string;
  Kind : string
}.

(** GetConfigMapKey (lines 471-476) *)
Definition GetConfigMapKey (gvk : GroupVersionKind) : string :=
  if String.eqb (Group gvk) "" then Kind gvk else Group gvk +:+ "/" +:+ Kind gvk.

(** strings.Contains(s, "_") *)
Fixpoint containsUnderscore (s : string) : bool :=
  match s with
  | EmptyString => false
  | String c rest => if Ascii.eqb c "_"%char then true else containsUnderscore rest
  end.

(** strings.ReplaceAll(s, "_", "*") *)
Fixpoint replaceUnderscore (s : string) : string :=
  match s with
  | EmptyString => EmptyString
  | String c rest =>
      String (if Ascii.eqb c "_"%char then "*"%char else c) (replaceUnderscore rest)
  end.

Definition errScriptDoesNotExist : goerror := Errorf "built-in script does not exist".

Section Engine.

(** The sandbox: runLuaWithResourceActionParameters (lines 75-129) runs
    the script in a fresh interpreter with [obj] and [actionParams] bound
    as globals and returns the error or the value on top of the stack. *)
Variable runLuaWithResourceActionParameters :
  VM -> object -> string -> list (string * value) -> runResult.

(** The embedded catalog: the [health.lua] files of
    resource_customizations.Embedded, as (directory, contents); the
    directories are distinct. *)
Variable healthCatalog : list (string * string).

(** argoglob.Match(pattern, text), glob.PathMatchUnvalidated(pattern, name)
    and glob.ValidatePattern(pattern) of the glob libraries. *)
Variable globMatch : string -> string -> bool.
Variable pathMatchUnvalidated : string -> string -> bool.
Variable validatePattern : string -> bool.

(** runLua (lines 71-73) *)
Definition runLua (vm : VM) (obj : object) (script : string) : runResult :=
  runLuaWithResourceActionParameters vm obj script [].

(** ExecuteHealthLua (lines 132-165) *)
Definition ExecuteHealthLua (vm : VM) (obj : object) (script : string)
  : result HealthStatus :=
  match runLua vm obj script with
  | RunErr err => Err err
  | RunOk returnValue =>
      match returnValue with
      | LTable enc =>
          match enc with
          | EncodeError msg => Err (Errorf msg)
          | Encoded jsonValue =>
              match unmarshalHealthStatus jsonValue with
              | Err err =>
                  if errorsAsUnmarshalTypeError err then Ok zeroHealthStatus
                  else Err err
              | Ok healthStatus =>
                  if negb (isValidHealthStatusCode (Status healthStatus))
                  then Ok (mkHealthStatus HealthStatusUnknown invalidHealthStatus)
                  else Ok healthStatus
              end
          end
      | LNil => Ok zeroHealthStatus
      | _ => Err (incorrectReturnType "table" (lvalueTypeName returnValue))
      end
  end.

(** getPredefinedLuaScripts (lines 492-501) for [health.lua]: reading
    [objKey/health.lua] from the embedded tree; a missing file is
    [errScriptDoesNotExist]. *)
Definition getPredefinedHealthScript (objKey : string) : result string :=
  match assoc_lookup objKey healthCatalog with
  | Some data => Ok data
  | None => Err errScriptDoesNotExist
  end.

(** The callback of fs.WalkDir in getGlobHealthScriptPaths (lines
    518-547), over the [health.lua] files in walk order: keep the
    directories whose name holds the wildcard marker [_], fail on a
    directory whose pattern does not validate. *)
Fixpoint walkHealthScriptDirs (files : list (string * string)) (patterns : list string)
  : result (list string) :=
  match files with
  | [] => Ok patterns
  | (groupKindPath, _) :: rest =>
      if negb (containsUnderscore groupKindPath) then walkHealthScriptDirs rest patterns
      else if negb (validatePattern (replaceUnderscore groupKindPath))
      then Err (Errorf ("invalid glob pattern " +:+ replaceUnderscore groupKindPath))
      else walkHealthScriptDirs rest (app patterns [groupKindPath])
  end.

(** getGlobHealthScriptPaths (lines 513-561): the walk, then
    [slices.Sort] (byte-wise lexicographic order).  The sync.Once cache
    holds this value for the life of the process. *)
Definition getGlobHealthScriptPaths : result (list string) :=
  match walkHealthScriptDirs healthCatalog [] with
  | Err e => Err (Wrapped "error getting health script glob directories" e)
  | Ok patterns => Ok (merge_sort String.le patterns)
  end.

Fixpoint firstMatchingGlob (objKey : string) (globs : list string) : option string :=
  match globs with
  | [] => None
  | g :: rest =>
      if pathMatchUnvalidated (replaceUnderscore g) objKey then Some g
      else firstMatchingGlob objKey rest
  end.

(** getWildcardBuiltInHealthOverrideLua (lines 563-583) *)
Definition getWildcardBuiltInHealthOverrideLua (objKey : string) : result string :=
  match getGlobHealthScriptPaths with
  | Err e => Err (Wrapped "error getting health script globs" e)
  | Ok globs =>
      match firstMatchingGlob objKey globs with
      | None => Ok ""
      | Some g =>
          match assoc_lookup g healthCatalog with
          | Some script => Ok script
          | None => Err (Errorf ("error reading " +:+ objKey +:+ "/health.lua file in embedded filesystem"))
          end
      end
  end.

(** getWildcardHealthOverrideLua (lines 481-490): the first override, in
    map iteration order, whose key matches and whose health script is
    non-empty. *)
Fixpoint getWildcardHealthOverrideLua (ovs : overrides) (gvk : GroupVersionKind)
  : string * bool :=
  match ovs with
  | [] => ("", false)
  | (key, override) :: rest =>
      if globMatch key (GetConfigMapKey gvk) && negb (String.eqb (HealthLua override) "")
      then (HealthLua override, UseOpenLibs override)
      else getWildcardHealthOverrideLua rest gvk
  end.

(** GetHealthScript (lines 169-205) *)
Definition GetHealthScript (vm : VM) (gvk : GroupVersionKind) : result (string * bool) :=
  let key := GetConfigMapKey gvk in
  let exact :=
    match assoc_lookup key (ResourceOverrides vm) with
    | Some script => if negb (String.eqb (HealthLua script) "") then Some script else None
    | None => None
    end in
  match exact with
  | Some script => Ok (HealthLua script, UseOpenLibs script)
  | None =>
      let '(getWildcardHealthOverride, useOpenLibs) :=
        getWildcardHealthOverrideLua (ResourceOverrides vm) gvk in
      if negb (String.eqb getWildcardHealthOverride "") then
        Ok (getWildcardHealthOverride, useOpenLibs)
      else
        match getPredefinedHealthScript key with
        | Ok builtInScript => Ok (builtInScript, true)
        | Err err =>
            if decide (err = errScriptDoesNotExist) then
              match getWildcardBuiltInHealthOverrideLua key with
              | Err err' => Err (Wrapped "error while fetching built-in health script" err')
              | Ok builtInScript =>
                  if negb (String.eqb builtInScript "") then Ok (builtInScript, true)
                  else Ok ("", false)
              end
            else Err err
        end
  end.

(* ------------------------------------------------------------------ *)
(** ** Action discovery *)

(** Modelled from the spec: appv1.ResourceAction (declared outside src/),
    the named action descriptor: its name, its disabled flag and the
    display fields a discovery entry may set. *)
Record ResourceAction : Type := mkResourceAction {
  Name : string;
  Disabled : bool;
  IconClass : string;
  DisplayName : string
}.

(** [json.Unmarshal(json.Marshal(value), &resourceAction)]: decoding an
    entry into the descriptor already holding its name and disabled flag
    (encoding/json and the struct tags of ResourceAction, outside src/). *)
Variable unmarshalResourceAction : ResourceAction -> value -> result ResourceAction.

(** isActionDisabled (lines 384-397) *)
Definition isActionDisabled (actionsMap : value) : bool :=
  match actionsMap with
  | VObject actions =>
      (fix go (m : object) : bool :=
         match m with
         | ONil => false
         | OCons key (VBool vv) rest => if String.eqb key "disabled" then vv else go rest
         | OCons _ _ rest => go rest
         end) actions
  | _ => false
  end.

(** emptyResourceActionFromLua (lines 399-402) *)
Definition emptyResourceActionFromLua (i : value) : bool :=
  match i with VArray _ => true | _ => false end.

(** noAvailableActions (lines 404-407) *)
Definition noAvailableActions (jsonBytes : string) : bool :=
  String.eqb jsonBytes "[]".

(** [json.Unmarshal(jsonBytes, &actionsMap)] with [actionsMap] a
    [map[string]any]. *)
Definition unmarshalActionsMap (v : value) : result object :=
  match v with
  | VObject m => Ok m
  | VNull => Ok ONil
  | _ => Err (UnmarshalTypeError (json_kind v) "map[string]interface {}" "")
  end.

(** The inner loop of ExecuteResourceActionDiscovery (lines 353-372) over
    the entries of one script's table, into [availableActionsMap] (new
    keys are appended). *)
Fixpoint mergeActions (actionsMap : object) (availableActionsMap : list (string * ResourceAction))
  : result (list (string * ResourceAction)) :=
  match actionsMap with
  | ONil => Ok availableActionsMap
  | OCons key value rest =>
      let resourceAction := mkResourceAction key (isActionDisabled value) "" "" in
      match assoc_lookup key availableActionsMap with
      | Some _ => mergeActions rest availableActionsMap
      | None =>
          if emptyResourceActionFromLua value then
            mergeActions rest (app availableActionsMap [(key, resourceAction)])
          else
            match unmarshalResourceAction resourceAction value with
            | Err err => Err (Wrapped "error unmarshaling resource action" err)
            | Ok ra => mergeActions rest (app availableActionsMap [(key, ra)])
            end
      end
  end.

(** The outer loop of ExecuteResourceActionDiscovery (lines 332-373) over
    the scripts, in order. *)
Fixpoint discoverActions (vm : VM) (obj : object) (scripts : list string)
    (availableActionsMap : list (string * ResourceAction))
  : result (list (string * ResourceAction)) :=
  match scripts with
  | [] => Ok availableActionsMap
  | script :: rest =>
      match runLua vm obj script with
      | RunErr err => Err err
      | RunOk returnValue =>
          match returnValue with
          | LTable (Encoded jsonValue) =>
              if noAvailableActions (jsonEncode jsonValue) then
                discoverActions vm obj rest availableActionsMap
              else
                match unmarshalActionsMap jsonValue with
                | Err err => Err (Wrapped "error unmarshaling action table" err)
                | Ok actionsMap =>
                    match mergeActions actionsMap availableActionsMap with
                    | Err err => Err err
                    | Ok m => discoverActions vm obj rest m
                    end
                end
          | LTable (EncodeError msg) =>
              Err (Wrapped "error in converting to lua table" (Errorf msg))
          | _ => Err (incorrectReturnType "table" (lvalueTypeName returnValue))
          end
      end
  end.

(** ExecuteResourceActionDiscovery (lines 326-381); the values of the
    accumulated map are returned (in Go, in map iteration order). *)
Definition ExecuteResourceActionDiscovery (vm : VM) (obj : object) (scripts : list string)
  : result (list ResourceAction) :=
  match scripts with
  | [] => Err (Errorf "no action discovery script provided")
  | _ =>
      match discoverActions vm obj scripts [] with
      | Err err => Err err
      | Ok availableActionsMap => Ok (map snd availableActionsMap)
      end
  end.

(** The actions block of an override once parsed (appv1, outside src/). *)
Record OverrideActions : Type := mkOverrideActions {
  ActionDiscoveryLua : string;
  MergeBuiltinActions : bool
}.

(** override.GetActions(): parsing the YAML actions block. *)
Variable getActions : ResourceOverride -> result OverrideActions.

(** The [discovery.lua] files of the embedded tree, as
    (resource key, contents) for [<key>/actions/discovery.lua]. *)
Variable discoveryCatalog : list (string * string).

(** The built-in part of GetResourceActionDiscovery (lines 427-440):
    appending [<key>/actions/discovery.lua] when it exists. *)
Definition appendBuiltinDiscovery (key : string) (discoveryScripts : list string)
  : result (list string) :=
  match assoc_lookup key discoveryCatalog with
  | None => Ok discoveryScripts
  | Some discoveryScript => Ok (app discoveryScripts [discoveryScript])
  end.

(** GetResourceActionDiscovery (lines 409-441) *)
Definition GetResourceActionDiscovery (vm : VM) (gvk : GroupVersionKind)
  : result (list string) :=
  let key := GetConfigMapKey gvk in
  match assoc_lookup key (ResourceOverrides vm) with
  | Some override =>
      if negb (String.eqb (Actions override) "") then
        match getActions override with
        | Err err => Err err
        | Ok actions =>
            if negb (MergeBuiltinActions actions)
            then Ok [ActionDiscoveryLua actions]
            else appendBuiltinDiscovery key [ActionDiscoveryLua actions]
        end
      else appendBuiltinDiscovery key []
  | None => appendBuiltinDiscovery key []
  end.

(* ------------------------------------------------------------------ *)
(** ** Action execution *)

(** Modelled from the spec: ImpactedResource and K8SOperation (declared
    in another file of the package, outside src/): a {resource, operation}
    pair, the operation a tag of which "patch" is the Patch operation. *)
Record ImpactedResource : Type := mkImpactedResource {
  UnstructuredObj : object;
  K8SOperation : string
}.

Definition PatchOperation : string := "patch".

(** [json.Unmarshal] into [[]ImpactedResource], and
    appv1.UnmarshalToUnstructured (outside src/). *)
Variable unmarshalImpactedResourcesJSON : string -> result (list ImpactedResource).
Variable UnmarshalToUnstructured : string -> result object.

(** UnmarshalToImpactedResources (lines 258-269) *)
Definition UnmarshalToImpactedResources (resources : string)
  : result (list ImpactedResource) :=
  if String.eqb resources "" || String.eqb resources "null" then Ok []
  else unmarshalImpactedResourcesJSON resources.

(** [jsonString[0] == '[' && jsonString[len(jsonString)-1] == ']'] *)
Definition bracketed (jsonString : string) : bool :=
  match String.get 0 jsonString, String.get (String.length jsonString - 1) jsonString with
  | Some c0, Some cn => Ascii.eqb c0 "["%char && Ascii.eqb cn "]"%char
  | _, _ => false
  end.

(** Lines 219-244 of ExecuteResourceAction: sniffing the encoded text for
    the new-style array or the old-style single object. *)
Definition sniffActionOutput (jsonString : string) : result (list ImpactedResource) :=
  if Nat.ltb (String.length jsonString) 2 then
    Err (Errorf "Lua output was not a valid json object or array")
  else if bracketed jsonString then
    UnmarshalToImpactedResources jsonString
  else
    match UnmarshalToUnstructured jsonString with
    | Err err => Err err
    | Ok newObj => Ok [mkImpactedResource newObj PatchOperation]
    end.

(** Lines 246-251: every Patch entry's object is replaced by the cleaned
    one (through the pointer, so the returned slice sees it). *)
Fixpoint cleanImpactedResources (impactedResources : list ImpactedResource) (obj : object)
  : result (list ImpactedResource) :=
  match impactedResources with
  | [] => Ok []
  | impactedResource :: rest =>
      let cleaned :=
        if String.eqb (K8SOperation impactedResource) PatchOperation then
          match cleanReturnedObj (UnstructuredObj impactedResource) obj with
          | Some o => Ok (mkImpactedResource o (K8SOperation impactedResource))
          | None => Err (GoPanic "index out of range")
          end
        else Ok impactedResource in
      match cleaned, cleanImpactedResources rest obj with
      | Err err, _ => Err err
      | Ok r, Err err => Err err
      | Ok r, Ok rs => Ok (r :: rs)
      end
  end.

(** ExecuteResourceAction (lines 207-255) *)
Definition ExecuteResourceAction (vm : VM) (obj : object) (script : string)
    (resourceActionParameters : list (string * value))
  : result (list ImpactedResource) :=
  match runLuaWithResourceActionParameters vm obj script resourceActionParameters with
  | RunErr err => Err err
  | RunOk returnValue =>
      match returnValue with
      | LTable (Encoded v) =>
          let jsonString := jsonEncode v in
          match sniffActionOutput jsonString with
          | Err err => Err err
          | Ok impactedResources => cleanImpactedResources impactedResources obj
          end
      | LTable (EncodeError msg) => Err (Errorf msg)
      | _ => Err (incorrectReturnType "table" (lvalueTypeName returnValue))
      end
  end.

(* ------------------------------------------------------------------ *)
(** ** Health of a resource and named actions *)

(** obj.GroupVersionKind() of apimachinery: the group, version and kind
    read from the [apiVersion] and [kind] fields of the object. *)
Variable objGroupVersionKind : object -> GroupVersionKind.

(** GetResourceHealth (lines 44-63), on ResourceHealthOverrides: a nil
    status with a nil error is [Ok None]. *)
Definition GetResourceHealth (ovs : overrides) (obj : object) : result (option HealthStatus) :=
  let luaVM := mkVM ovs false in
  match GetHealthScript luaVM (objGroupVersionKind obj) with
  | Err err => Err err
  | Ok (script, useOpenLibs) =>
      if String.eqb script "" then Ok None
      else
        (* luaVM.UseOpenLibs = useOpenLibs *)
        let luaVM' := mkVM (ResourceOverrides luaVM) useOpenLibs in
        match ExecuteHealthLua luaVM' obj script with
        | Err err => Err err
        | Ok result => Ok (Some result)
        end
  end.

(** Modelled from the spec: appv1.ResourceActionDefinition (outside
    src/), a named action of an override's actions block with its script
    text. *)
Record ResourceActionDefinition : Type := mkResourceActionDefinition {
  DefinitionName : string;   (* Name *)
  ActionLua : string
}.

(** override.GetActions(), read for its [Definitions]. *)
Variable getActionDefinitions : ResourceOverride -> result (list ResourceActionDefinition).

(** resource_customizations.Embedded.ReadFile(filepath.Join(actionKey,
    "action.lua")): the contents, or [None] when there is no such file. *)
Variable readActionScript : string -> option string.

(** getPredefinedLuaScripts (lines 492-501) for [action.lua]: a missing
    file is [errScriptDoesNotExist]. *)
Definition getPredefinedActionScript (actionKey : string) : result string :=
  match readActionScript actionKey with
  | Some data => Ok data
  | None => Err errScriptDoesNotExist
  end.

(** The loop over [actions.Definitions] of GetResourceAction (lines
    452-456): the first definition with the name. *)
Fixpoint findActionDefinition (actionName : string) (defs : list ResourceActionDefinition)
  : option ResourceActionDefinition :=
  match defs with
  | [] => None
  | action :: rest =>
      if String.eqb (DefinitionName action) actionName then Some action
      else findActionDefinition actionName rest
  end.

(** GetResourceAction (lines 444-469) *)
Definition GetResourceAction (vm : VM) (gvk : GroupVersionKind) (actionName : string)
  : result ResourceActionDefinition :=
  let key := GetConfigMapKey gvk in
  let builtIn :=
    let actionKey := key +:+ "/actions/" +:+ actionName in
    match getPredefinedActionScript actionKey with
    | Err err => Err err
    | Ok actionScript => Ok (mkResourceActionDefinition actionName actionScript)
    end in
  match assoc_lookup key (ResourceOverrides vm) with
  | Some override =>
      if negb (String.eqb (Actions override) "") then
        match getActionDefinitions override with
        | Err err => Err err
        | Ok defs =>
            match findActionDefinition actionName defs with
            | Some action => Ok action
            | None => builtIn
            end
        end
      else builtIn
  | None => builtIn
  end.

(* ================================================================== *)
(** * Properties *)

(** [tauto] would abstract over the section's variables; they are cleared
    first, so that a lemma only depends on what it states. *)
Ltac clear_engine :=
  repeat match goal with
  | f : VM -> object -> string -> list (string * value) -> runResult |- _ => clear f
  | f : list (string * string) |- _ => clear f
  | f : string -> string -> bool |- _ => clear f
  | f : string -> bool |- _ => clear f
  | f : ResourceAction -> value -> result ResourceAction |- _ => clear f
  | f : ResourceOverride -> result OverrideActions |- _ => clear f
  | f : string -> result (list ImpactedResource) |- _ => clear f
  | f : string -> result object |- _ => clear f
  | f : object -> GroupVersionKind |- _ => clear f
  | f : ResourceOverride -> result (list ResourceActionDefinition) |- _ => clear f
  | f : string -> option string |- _ => clear f
  end.

Ltac engine_tauto := clear_engine; tauto.

Example clean_top_level_empty_map :
  cleanReturnedObj (OCons "a" (VArray ANil) ONil) (OCons "a" (VObject ONil) ONil)
  = Some (OCons "a" (VObject ONil) ONil).
Proof. reflexivity. Qed.

(** The six health status codes. *)
Definition healthStatusCodes : list HealthStatusCode :=
  [HealthStatusUnknown; HealthStatusProgressing; HealthStatusSuspended;
   HealthStatusHealthy; HealthStatusDegraded; HealthStatusMissing].

Lemma isValidHealthStatusCode_spec (c : HealthStatusCode) :
  isValidHealthStatusCode c = true <-> In c healthStatusCodes.
Proof.
  unfold isValidHealthStatusCode, healthStatusCodes.
  destruct (decide (c = HealthStatusUnknown)) as [->|H1]; [split; [intros _; left; reflexivity | reflexivity]|].
  destruct (decide (c = HealthStatusProgressing)) as [->|H2]; [split; [intros _; right; left; reflexivity | reflexivity]|].
  destruct (decide (c = HealthStatusSuspended)) as [->|H3]; [split; [intros _; do 2 right; left; reflexivity | reflexivity]|].
  destruct (decide (c = HealthStatusHealthy)) as [->|H4]; [split; [intros _; do 3 right; left; reflexivity | reflexivity]|].
  destruct (decide (c = HealthStatusDegraded)) as [->|H5]; [split; [intros _; do 4 right; left; reflexivity | reflexivity]|].
  destruct (decide (c = HealthStatusMissing)) as [->|H6]; [split; [intros _; do 5 right; left; reflexivity | reflexivity]|].
  split; [discriminate|].
  intros Hin; exfalso; destruct Hin as [E|[E|[E|[E|[E|[E|[]]]]]]];
    [apply H1|apply H2|apply H3|apply H4|apply H5|apply H6]; symmetry; exact E.
Qed.

(** ** C1: cleaning an unchanged object.
    An object whose list holds an empty map comes back from the Lua round
    trip with an empty list in that slot, and the cleaning pass leaves it
    an empty list: the correction of the map case is missing for slice
    elements.  A new slice longer than the original one whose extra
    element is a map makes the pass read past the end of the original
    slice (a panic). *)
Theorem cleanReturnedObj_list_element_defects :
  let original := OCons "a" (VArray (ACons (VObject ONil) ANil)) ONil in
  luaRoundTripObj original = OCons "a" (VArray (ACons (VArray ANil) ANil)) ONil /\
  cleanReturnedObj (luaRoundTripObj original) original
    = Some (OCons "a" (VArray (ACons (VArray ANil) ANil)) ONil) /\
  cleanReturnedObj
    (OCons "a" (VArray ANil) (OCons "b" (VArray (ACons (VNum 1) (ACons (VObject (OCons "x" (VNum 1) ONil)) ANil))) ONil))
    (OCons "a" (VObject ONil) (OCons "b" (VArray (ACons (VNum 1) ANil)) ONil))
    = None.
Proof. repeat split; reflexivity. Qed.

(** ** Health evaluation *)

Theorem ExecuteHealthLua_status_code (vm : VM) (obj : object) (script : string)
    (v : value) (hs : HealthStatus) :
  runLua vm obj script = RunOk (LTable (Encoded v)) ->
  unmarshalHealthStatus v = Ok hs ->
  (~ In (Status hs) healthStatusCodes ->
     ExecuteHealthLua vm obj script = Ok (mkHealthStatus HealthStatusUnknown invalidHealthStatus)) /\
  (In (Status hs) healthStatusCodes -> ExecuteHealthLua vm obj script = Ok hs).
Proof.
  intros Hrun Hdec; unfold ExecuteHealthLua; rewrite Hrun, Hdec.
  split; intros Hin.
  - destruct (isValidHealthStatusCode (Status hs)) eqn:Hv; [|reflexivity].
    apply isValidHealthStatusCode_spec in Hv; contradiction.
  - apply isValidHealthStatusCode_spec in Hin; rewrite Hin; reflexivity.
Qed.

Theorem ExecuteHealthLua_nil_or_wrong_shape (vm : VM) (obj : object) (script : string)
    (returnValue : LValue) :
  runLua vm obj script = RunOk returnValue ->
  (returnValue = LNil -> ExecuteHealthLua vm obj script = Ok (mkHealthStatus "" "")) /\
  ((forall t, returnValue <> LTable t) -> returnValue <> LNil ->
     ExecuteHealthLua vm obj script
     = Err (Errorf ("expect table output from Lua script, not " +:+ lvalueTypeName returnValue))).
Proof.
  intros Hrun; unfold ExecuteHealthLua; rewrite Hrun; split.
  - intros ->; reflexivity.
  - intros Hnt Hnn; destruct returnValue; try reflexivity.
    + contradiction.
    + exfalso; eapply Hnt; reflexivity.
Qed.

(** ** Action discovery with no script *)

Theorem ExecuteResourceActionDiscovery_no_script :
  (forall (vm : VM) (obj : object),
     ExecuteResourceActionDiscovery vm obj []
     = Err (Errorf "no action discovery script provided")) /\
  (forall (vm : VM) (gvk : GroupVersionKind),
     assoc_lookup (GetConfigMapKey gvk) (ResourceOverrides vm) = None ->
     assoc_lookup (GetConfigMapKey gvk) discoveryCatalog = None ->
     GetResourceActionDiscovery vm gvk = Ok []).
Proof.
  split.
  - intros; reflexivity.
  - intros vm gvk Hov Hcat; unfold GetResourceActionDiscovery, appendBuiltinDiscovery.
    rewrite Hov, Hcat; reflexivity.
Qed.

(** ** Sniffing the action output *)

Definition is_aggregate (v : value) : bool :=
  match v with VArray _ | VObject _ => true | _ => false end.

Lemma get_last_append (x : string) (d : ascii) :
  String.get (String.length x) (x +:+ String d EmptyString) = Some d.
Proof. induction x as [|c x IH]; simpl; [reflexivity | exact IH]. Qed.

Lemma length_append (x y : string) :
  String.length (x +:+ y) = String.length x + String.length y.
Proof. induction x as [|c x IH]; simpl; [reflexivity | now rewrite IH]. Qed.

(** The text of an aggregate is [open ++ body ++ close]. *)
Lemma delimited_text (o c : ascii) (body : string) :
  let t := String o EmptyString +:+ body +:+ String c EmptyString in
  String.get 0 t = Some o /\
  String.get (String.length t - 1) t = Some c /\
  2 <= String.length t.
Proof.
  cbn zeta. change (String o EmptyString +:+ ?x) with (String o x).
  assert (Hl : String.length (String o (body +:+ String c EmptyString))
               = S (S (String.length body))).
  { simpl; rewrite length_append; simpl; lia. }
  rewrite Hl; split; [reflexivity|]; split; [|lia].
  replace (S (S (String.length body)) - 1) with (S (String.length body)) by lia.
  simpl; apply get_last_append.
Qed.

Lemma bracketed_jsonEncode (v : value) :
  is_aggregate v = true ->
  2 <= String.length (jsonEncode v) /\
  (bracketed (jsonEncode v) = true <-> exists a, v = VArray a).
Proof.
  destruct v as [| | | |a|m]; simpl; try discriminate; intros _.
  - destruct (delimited_text "["%char "]"%char (jsonEncodeArr a)) as (H0 & H1 & H2).
    simpl in H0, H1, H2 |- *.
    split; [exact H2|].
    unfold bracketed; simpl in *; rewrite H1; simpl.
    split; [intros _; eauto | reflexivity].
  - destruct (delimited_text "{"%char "}"%char (jsonEncodeObj m)) as (H0 & H1 & H2).
    simpl in H0, H1, H2 |- *.
    split; [exact H2|].
    unfold bracketed; simpl in *; rewrite H1; simpl.
    split; [discriminate | intros [a Ha]; discriminate].
Qed.

Theorem ExecuteResourceAction_format_sniffing (vm : VM) (obj : object) (script : string)
    (params : list (string * value)) (v : value) :
  runLuaWithResourceActionParameters vm obj script params = RunOk (LTable (Encoded v)) ->
  is_aggregate v = true ->
  (bracketed (jsonEncode v) = true <-> exists a, v = VArray a) /\
  ExecuteResourceAction vm obj script params =
    match (if bracketed (jsonEncode v)
           then UnmarshalToImpactedResources (jsonEncode v)
           else match UnmarshalToUnstructured (jsonEncode v) with
                | Err err => Err err
                | Ok newObj => Ok [mkImpactedResource newObj PatchOperation]
                end) with
    | Err err => Err err
    | Ok impactedResources => cleanImpactedResources impactedResources obj
    end.
Proof.
  intros Hrun Hagg.
  destruct (bracketed_jsonEncode v Hagg) as [Hlen Hbr].
  split; [exact Hbr|].
  unfold ExecuteResourceAction; rewrite Hrun; cbn zeta.
  unfold sniffActionOutput.
  destruct (Nat.ltb_spec (String.length (jsonEncode v)) 2); [lia|].
  reflexivity.
Qed.

(** ** Action discovery: first writer wins *)

(** The table one discovery script contributes: [None] for a script whose
    table is empty (skipped) or whose run did not give a decodable
    table. *)
Definition scriptTable (vm : VM) (obj : object) (script : string) : option object :=
  match runLua vm obj script with
  | RunOk (LTable (Encoded v)) =>
      if noAvailableActions (jsonEncode v) then None
      else match unmarshalActionsMap v with Ok m => Some m | Err _ => None end
  | _ => None
  end.

(** The entry for [k] in the earliest table defining it. *)
Fixpoint firstDefinition (k : string) (tables : list (option object)) : option value :=
  match tables with
  | [] => None
  | Some m :: rest =>
      match obj_lookup k m with
      | Some v => Some v
      | None => firstDefinition k rest
      end
  | None :: rest => firstDefinition k rest
  end.

(** The descriptor an entry [k = v] makes. *)
Definition contribution (k : string) (v : value) : result ResourceAction :=
  let resourceAction := mkResourceAction k (isActionDisabled v) "" "" in
  if emptyResourceActionFromLua v then Ok resourceAction
  else unmarshalResourceAction resourceAction v.

Lemma assoc_lookup_snoc {A} (k key : string) (d : A) (l : list (string * A)) :
  assoc_lookup k (app l [(key, d)]) =
  match assoc_lookup k l with
  | Some x => Some x
  | None => if String.eqb key k then Some d else None
  end.
Proof.
  induction l as [|[k' x] l IH]; simpl; [reflexivity|].
  destruct (String.eqb k' k); [reflexivity | exact IH].
Qed.

Lemma assoc_lookup_None_not_in {A} (k : string) (l : list (string * A)) :
  assoc_lookup k l = None -> ~ In k (map fst l).
Proof.
  induction l as [|[k' x] l IH]; simpl; [engine_tauto|].
  destruct (String.eqb_spec k' k); [discriminate|].
  intros H [Heq|Hin]; [congruence | exact (IH H Hin)].
Qed.

Lemma assoc_lookup_in {A} (k : string) (l : list (string * A)) :
  In k (map fst l) <-> assoc_lookup k l <> None.
Proof.
  induction l as [|[k' x] l IH]; simpl; [split; [engine_tauto | intros H; now apply H]|].
  destruct (String.eqb_spec k' k) as [->|Hne]; [split; [discriminate | engine_tauto]|].
  rewrite <- IH; split; [intros [H|H]; [congruence | exact H] | engine_tauto].
Qed.

Lemma NoDup_snoc {A} (l : list (string * A)) (key : string) (d : A) :
  NoDup (map fst l) -> assoc_lookup key l = None ->
  NoDup (map fst (app l [(key, d)])).
Proof.
  intros Hnd Hnone. rewrite map_app; simpl.
  apply NoDup_app; split; [exact Hnd|]; split; [|apply NoDup_singleton].
  intros x Hx Hy. apply list_elem_of_singleton in Hy; subst x.
  apply (assoc_lookup_None_not_in _ _ Hnone). now apply list_elem_of_In.
Qed.

(** What the accumulator holds after merging one table: earlier entries
    are kept, a new name gets the contribution of its first entry. *)
Definition merge_post (m : object) (acc0 acc : list (string * ResourceAction)) : Prop :=
  (NoDup (map fst acc0) -> NoDup (map fst acc)) /\
  forall k,
    (forall d, assoc_lookup k acc0 = Some d -> assoc_lookup k acc = Some d) /\
    (assoc_lookup k acc0 = None ->
       match obj_lookup k m with
       | None => assoc_lookup k acc = None
       | Some v => exists d, contribution k v = Ok d /\ assoc_lookup k acc = Some d
       end).

Lemma mergeActions_spec (m : object) :
  forall acc0 acc, mergeActions m acc0 = Ok acc -> merge_post m acc0 acc.
Proof.
  induction m as [|key value rest IH]; intros acc0 acc Hm; simpl in Hm.
  - injection Hm as <-. split; [engine_tauto|]. intros k; split; [engine_tauto|]. simpl; engine_tauto.
  - destruct (assoc_lookup key acc0) as [d0|] eqn:Hk.
    + destruct (IH _ _ Hm) as [Hnd Hk'].
      split; [exact Hnd|]. intros k; split; [apply Hk'|].
      intros Hnone; simpl.
      destruct (String.eqb_spec key k) as [<-|Hne]; [congruence|].
      apply Hk'; exact Hnone.
    + assert (Hstep : exists d, contribution key value = Ok d /\
                mergeActions rest (app acc0 [(key, d)]) = Ok acc).
      { unfold contribution.
        destruct (emptyResourceActionFromLua value); [eexists; split; [reflexivity | exact Hm]|].
        destruct (unmarshalResourceAction _ value) as [ra|err]; [|discriminate].
        eexists; split; [reflexivity | exact Hm]. }
      destruct Hstep as (d & Hc & Hm').
      destruct (IH _ _ Hm') as [Hnd Hk'].
      split; [intros H0; apply Hnd, NoDup_snoc; assumption|].
      intros k; split.
      * intros d' Hd'. apply Hk'. rewrite assoc_lookup_snoc, Hd'. reflexivity.
      * intros Hnone; simpl.
        destruct (String.eqb_spec key k) as [<-|Hne].
        -- exists d; split; [exact Hc|]. apply Hk'. rewrite assoc_lookup_snoc, Hk.
           now rewrite String.eqb_refl.
        -- apply Hk'. rewrite assoc_lookup_snoc, Hnone.
           destruct (String.eqb_spec key k); [contradiction | reflexivity].
Qed.

Definition discover_post (vm : VM) (obj : object) (scripts : list string)
    (acc0 acc : list (string * ResourceAction)) : Prop :=
  (NoDup (map fst acc0) -> NoDup (map fst acc)) /\
  forall k,
    (forall d, assoc_lookup k acc0 = Some d -> assoc_lookup k acc = Some d) /\
    (assoc_lookup k acc0 = None ->
       match firstDefinition k (map (scriptTable vm obj) scripts) with
       | None => assoc_lookup k acc = None
       | Some v => exists d, contribution k v = Ok d /\ assoc_lookup k acc = Some d
       end).

Lemma discoverActions_spec (vm : VM) (obj : object) (scripts : list string) :
  forall acc0 acc, discoverActions vm obj scripts acc0 = Ok acc ->
  discover_post vm obj scripts acc0 acc.
Proof.
  induction scripts as [|script rest IH]; intros acc0 acc H; simpl in H.
  - injection H as <-. split; [engine_tauto|]. intros k; split; [engine_tauto|]. simpl; engine_tauto.
  - destruct (runLua vm obj script) as [err|top] eqn:Hr; [discriminate|].
    destruct top as [| | | | | | | |[v|msg]]; try discriminate.
    destruct (noAvailableActions (jsonEncode v)) eqn:Hna.
    + assert (Ht : scriptTable vm obj script = None).
      { unfold scriptTable; rewrite Hr, Hna; reflexivity. }
      destruct (IH _ _ H) as [Hnd Hk]. split; [exact Hnd|].
      intros k; simpl; rewrite Ht; apply Hk.
    + destruct (unmarshalActionsMap v) as [m|err] eqn:Hu; [|discriminate].
      destruct (mergeActions m acc0) as [acc1|err] eqn:Hm; [|discriminate].
      assert (Ht : scriptTable vm obj script = Some m).
      { unfold scriptTable; rewrite Hr, Hna, Hu; reflexivity. }
      destruct (mergeActions_spec m acc0 acc1 Hm) as [Hnd1 Hk1].
      destruct (IH _ _ H) as [Hnd2 Hk2].
      split; [engine_tauto|].
      intros k; split.
      * intros d Hd. apply Hk2, Hk1, Hd.
      * intros Hnone. simpl; rewrite Ht.
        destruct (Hk1 k) as [_ Hnew]. specialize (Hnew Hnone).
        destruct (obj_lookup k m) as [v'|] eqn:Hl.
        -- destruct Hnew as (d & Hc & Hd). exists d; split; [exact Hc|].
           apply Hk2, Hd.
        -- apply Hk2, Hnew.
Qed.

(** C5: discovery union-merge is first-writer-wins. *)
Theorem ExecuteResourceActionDiscovery_first_writer_wins (vm : VM) (obj : object)
    (scripts : list string) (r : list ResourceAction) :
  ExecuteResourceActionDiscovery vm obj scripts = Ok r ->
  exists availableActionsMap,
    discoverActions vm obj scripts [] = Ok availableActionsMap /\
    r = map snd availableActionsMap /\
    NoDup (map fst availableActionsMap) /\
    forall k,
      match assoc_lookup k availableActionsMap with
      | Some d => exists v,
          firstDefinition k (map (scriptTable vm obj) scripts) = Some v /\
          contribution k v = Ok d
      | None => firstDefinition k (map (scriptTable vm obj) scripts) = None
      end.
Proof.
  unfold ExecuteResourceActionDiscovery.
  destruct scripts as [|s0 rest]; [discriminate|].
  destruct (discoverActions vm obj (s0 :: rest) []) as [acc|err] eqn:H; [|discriminate].
  intros Hr; injection Hr as <-.
  exists acc; split; [reflexivity|]; split; [reflexivity|].
  destruct (discoverActions_spec vm obj (s0 :: rest) [] acc H) as [Hnd Hk].
  split; [apply Hnd; constructor|].
  intros k. destruct (Hk k) as [_ Hnew]. specialize (Hnew eq_refl).
  destruct (firstDefinition k _) as [v|] eqn:Hf.
  - destruct Hnew as (d & Hc & ->). exists v; split; [reflexivity | exact Hc].
  - rewrite Hnew; reflexivity.
Qed.

Lemma firstDefinition_defined (k : string) (tables : list (option object)) :
  firstDefinition k tables <> None <->
  exists m, In (Some m) tables /\ obj_lookup k m <> None.
Proof.
  induction tables as [|[m|] ts IH]; simpl.
  - split; [engine_tauto | intros (m & [] & _)].
  - destruct (obj_lookup k m) eqn:Hl.
    + split; [intros _; exists m; split; [left; reflexivity | congruence] | discriminate].
    + rewrite IH. split.
      * intros (m' & Hin & Hm'). exists m'; engine_tauto.
      * intros (m' & [Heq|Hin] & Hm'); [injection Heq as ->; congruence | eauto].
  - rewrite IH. split.
    + intros (m' & Hin & Hm'). exists m'; engine_tauto.
    + intros (m' & [Heq|Hin] & Hm'); [discriminate | eauto].
Qed.

Lemma discovered_names (vm : VM) (obj : object) (scripts : list string)
    (acc : list (string * ResourceAction)) (k : string) :
  discoverActions vm obj scripts [] = Ok acc ->
  In k (map fst acc) <->
  exists m, In (Some m) (map (scriptTable vm obj) scripts) /\ obj_lookup k m <> None.
Proof.
  intros H. rewrite assoc_lookup_in, <- firstDefinition_defined.
  destruct (discoverActions_spec vm obj scripts [] acc H) as [_ Hk].
  destruct (Hk k) as [_ Hnew]. specialize (Hnew eq_refl).
  destruct (firstDefinition k _) as [v|].
  - destruct Hnew as (d & _ & ->). split; discriminate.
  - rewrite Hnew. engine_tauto.
Qed.

(** C6: the set of discovered names does not depend on the order of the
    scripts. *)
Theorem ExecuteResourceActionDiscovery_names_permutation (vm : VM) (obj : object)
    (scripts scripts' : list string) (r r' : list ResourceAction) :
  Permutation scripts scripts' ->
  ExecuteResourceActionDiscovery vm obj scripts = Ok r ->
  ExecuteResourceActionDiscovery vm obj scripts' = Ok r' ->
  exists acc acc',
    discoverActions vm obj scripts [] = Ok acc /\ r = map snd acc /\
    discoverActions vm obj scripts' [] = Ok acc' /\ r' = map snd acc' /\
    forall k, In k (map fst acc) <-> In k (map fst acc').
Proof.
  intros Hp Hr Hr'.
  unfold ExecuteResourceActionDiscovery in Hr, Hr'.
  destruct scripts as [|s0 rest]; [discriminate|].
  destruct scripts' as [|s0' rest']; [discriminate|].
  destruct (discoverActions vm obj (s0 :: rest) []) as [acc|err] eqn:H; [|discriminate].
  destruct (discoverActions vm obj (s0' :: rest') []) as [acc'|err] eqn:H'; [|discriminate].
  injection Hr as <-; injection Hr' as <-.
  exists acc, acc'; repeat split; try reflexivity.
  - intros Hk. apply (discovered_names _ _ _ _ _ H') .
    apply (discovered_names _ _ _ _ _ H) in Hk as (m & Hin & Hm).
    exists m; split; [|exact Hm].
    eapply Permutation_in; [apply Permutation_map; exact Hp | exact Hin].
  - intros Hk. apply (discovered_names _ _ _ _ _ H).
    apply (discovered_names _ _ _ _ _ H') in Hk as (m & Hin & Hm).
    exists m; split; [|exact Hm].
    eapply Permutation_in; [apply Permutation_map; symmetry; exact Hp | exact Hin].
Qed.

(** ** Health-script resolution *)

(** The wildcard directories of the catalog: those holding the marker. *)
Definition wildcardDirs : list string :=
  filter (fun d => containsUnderscore d = true) (map fst healthCatalog).

Lemma assoc_lookup_In {A} (k : string) (v : A) (l : list (string * A)) :
  assoc_lookup k l = Some v -> In (k, v) l.
Proof.
  induction l as [|[k' x] l IH]; simpl; [discriminate|].
  destruct (String.eqb_spec k' k) as [->|_]; [intros [= ->]; left; reflexivity|].
  intros H; right; exact (IH H).
Qed.

Lemma In_assoc_lookup {A} (k : string) (v : A) (l : list (string * A)) :
  In (k, v) l -> exists v', assoc_lookup k l = Some v'.
Proof.
  induction l as [|[k' x] l IH]; simpl; [engine_tauto|].
  destruct (String.eqb_spec k' k) as [->|Hne]; [eauto|].
  intros [Heq|Hin]; [injection Heq as -> ->; contradiction | exact (IH Hin)].
Qed.

Lemma walkHealthScriptDirs_ok (files : list (string * string)) (patterns : list string) :
  (forall d c, In (d, c) files -> containsUnderscore d = true ->
     validatePattern (replaceUnderscore d) = true) ->
  walkHealthScriptDirs files patterns
  = Ok (app patterns (filter (fun d => containsUnderscore d = true) (map fst files))).
Proof.
  revert patterns; induction files as [|[d c] files IH]; intros patterns Hv; simpl.
  - now rewrite app_nil_r.
  - rewrite filter_cons.
    destruct (containsUnderscore d) eqn:Hd; simpl.
    + rewrite (Hv d c (or_introl eq_refl) Hd); simpl.
      rewrite IH by (intros d0 c0 Hin0 Hc0; apply (Hv d0 c0); [simpl; right; exact Hin0 | exact Hc0]).
      rewrite <- app_assoc; reflexivity.
    + rewrite IH by (intros d0 c0 Hin0 Hc0; apply (Hv d0 c0); [simpl; right; exact Hin0 | exact Hc0]).
      destruct (decide (false = true)); [discriminate | reflexivity].
Qed.

Lemma firstMatchingGlob_Some (objKey : string) (l : list string) (g : string) :
  StronglySorted String.le l ->
  firstMatchingGlob objKey l = Some g ->
  In g l /\ pathMatchUnvalidated (replaceUnderscore g) objKey = true /\
  forall g', In g' l -> pathMatchUnvalidated (replaceUnderscore g') objKey = true ->
    String.le g g'.
Proof.
  induction l as [|x l IH]; simpl; [discriminate|].
  intros Hs; inversion Hs as [|? ? Hs' Hall]; subst.
  destruct (pathMatchUnvalidated (replaceUnderscore x) objKey) eqn:Hx.
  - intros [= <-]. split; [left; reflexivity|]; split; [exact Hx|].
    intros g' [<-|Hin] _; [reflexivity|].
    rewrite Forall_forall in Hall; apply Hall, list_elem_of_In, Hin.
  - intros Hf. destruct (IH Hs' Hf) as (Hin & Hm & Hmin).
    split; [right; exact Hin|]; split; [exact Hm|].
    intros g' [<-|Hin'] Hm'; [congruence | exact (Hmin g' Hin' Hm')].
Qed.

Lemma firstMatchingGlob_None (objKey : string) (l : list string) :
  firstMatchingGlob objKey l = None ->
  forall g, In g l -> pathMatchUnvalidated (replaceUnderscore g) objKey = false.
Proof.
  induction l as [|x l IH]; simpl; [engine_tauto|].
  destruct (pathMatchUnvalidated (replaceUnderscore x) objKey) eqn:Hx; [discriminate|].
  intros Hf g [<-|Hin]; [exact Hx | exact (IH Hf g Hin)].
Qed.

Lemma getWildcardHealthOverrideLua_spec (ovs : overrides) (gvk : GroupVersionKind) :
  let key := GetConfigMapKey gvk in
  let '(w, u) := getWildcardHealthOverrideLua ovs gvk in
  (w <> "" -> exists k o, In (k, o) ovs /\ globMatch k key = true /\
                HealthLua o <> "" /\ w = HealthLua o /\ u = UseOpenLibs o) /\
  (w = "" -> forall k o, In (k, o) ovs -> globMatch k key = true -> HealthLua o = "").
Proof.
  cbn zeta. induction ovs as [|[k o] ovs IH]; simpl.
  - split; [engine_tauto | intros _ k o []].
  - destruct (globMatch k (GetConfigMapKey gvk)) eqn:Hg;
      destruct (String.eqb_spec (HealthLua o) "") as [He|Hne]; simpl.
    + destruct (getWildcardHealthOverrideLua ovs gvk) as [w u]. destruct IH as [IH1 IH2].
      split.
      * intros Hw. destruct (IH1 Hw) as (k' & o' & ?). exists k', o'; engine_tauto.
      * intros Hw k' o' [Heq|Hin] Hg'; [injection Heq as -> ->; exact He | exact (IH2 Hw k' o' Hin Hg')].
    + split.
      * intros _. exists k, o; engine_tauto.
      * intros Hw; contradiction.
    + destruct (getWildcardHealthOverrideLua ovs gvk) as [w u]. destruct IH as [IH1 IH2].
      split.
      * intros Hw. destruct (IH1 Hw) as (k' & o' & ?). exists k', o'; engine_tauto.
      * intros Hw k' o' [Heq|Hin] Hg'; [injection Heq as -> ->; congruence | exact (IH2 Hw k' o' Hin Hg')].
    + destruct (getWildcardHealthOverrideLua ovs gvk) as [w u]. destruct IH as [IH1 IH2].
      split.
      * intros Hw. destruct (IH1 Hw) as (k' & o' & ?). exists k', o'; engine_tauto.
      * intros Hw k' o' [Heq|Hin] Hg'; [injection Heq as -> ->; congruence | exact (IH2 Hw k' o' Hin Hg')].
Qed.

Lemma getGlobHealthScriptPaths_ok :
  (forall d c, In (d, c) healthCatalog -> containsUnderscore d = true ->
     validatePattern (replaceUnderscore d) = true) ->
  getGlobHealthScriptPaths = Ok (merge_sort String.le wildcardDirs).
Proof.
  intros Hv. unfold getGlobHealthScriptPaths.
  rewrite (walkHealthScriptDirs_ok healthCatalog [] Hv). reflexivity.
Qed.

(** C2: the precedence of health-script resolution. *)
Theorem GetHealthScript_precedence (vm : VM) (gvk : GroupVersionKind)
  (Hvalid : forall d c, In (d, c) healthCatalog -> containsUnderscore d = true ->
     validatePattern (replaceUnderscore d) = true)
  (Hscripts : forall d c, In (d, c) healthCatalog -> containsUnderscore d = true -> c <> "") :
  let key := GetConfigMapKey gvk in
  let ovs := ResourceOverrides vm in
  (* (1) exact user override *)
  (forall o, assoc_lookup key ovs = Some o -> HealthLua o <> "" ->
     GetHealthScript vm gvk = Ok (HealthLua o, UseOpenLibs o)) /\
  ((forall o, assoc_lookup key ovs = Some o -> HealthLua o = "") ->
   (* (2) a matching user wildcard *)
   ((exists k o, In (k, o) ovs /\ globMatch k key = true /\ HealthLua o <> "") ->
      exists k o, In (k, o) ovs /\ globMatch k key = true /\ HealthLua o <> "" /\
        GetHealthScript vm gvk = Ok (HealthLua o, UseOpenLibs o)) /\
   ((forall k o, In (k, o) ovs -> globMatch k key = true -> HealthLua o = "") ->
      (* (3) exact built-in *)
      (forall script, assoc_lookup key healthCatalog = Some script ->
         GetHealthScript vm gvk = Ok (script, true)) /\
      (assoc_lookup key healthCatalog = None ->
         (* (4) lexicographically first matching built-in wildcard *)
         (forall g, In g wildcardDirs ->
            pathMatchUnvalidated (replaceUnderscore g) key = true ->
            (forall g', In g' wildcardDirs ->
               pathMatchUnvalidated (replaceUnderscore g') key = true -> String.le g g') ->
            exists script, assoc_lookup g healthCatalog = Some script /\
              GetHealthScript vm gvk = Ok (script, true)) /\
         (* (5) nothing: no script, no error *)
         ((forall g, In g wildcardDirs ->
             pathMatchUnvalidated (replaceUnderscore g) key = false) ->
          GetHealthScript vm gvk = Ok ("", false))))).
Proof.
  cbn zeta.
  pose proof (getWildcardHealthOverrideLua_spec (ResourceOverrides vm) gvk) as Hw.
  cbn zeta in Hw.
  assert (Hexact : forall o, assoc_lookup (GetConfigMapKey gvk) (ResourceOverrides vm) = Some o ->
            HealthLua o <> "" -> GetHealthScript vm gvk = Ok (HealthLua o, UseOpenLibs o)).
  { intros o Ho Hne. unfold GetHealthScript; cbn zeta. rewrite Ho.
    destruct (String.eqb_spec (HealthLua o) ""); [contradiction | reflexivity]. }
  split; [exact Hexact|].
  intros Hnoexact.
  assert (Hrest : GetHealthScript vm gvk =
    let '(w, u) := getWildcardHealthOverrideLua (ResourceOverrides vm) gvk in
    if negb (String.eqb w "") then Ok (w, u)
    else match getPredefinedHealthScript (GetConfigMapKey gvk) with
         | Ok builtInScript => Ok (builtInScript, true)
         | Err err =>
             if decide (err = errScriptDoesNotExist) then
               match getWildcardBuiltInHealthOverrideLua (GetConfigMapKey gvk) with
               | Err err' => Err (Wrapped "error while fetching built-in health script" err')
               | Ok builtInScript =>
                   if negb (String.eqb builtInScript "") then Ok (builtInScript, true)
                   else Ok ("", false)
               end
             else Err err
         end).
  { unfold GetHealthScript; cbn zeta.
    destruct (assoc_lookup (GetConfigMapKey gvk) (ResourceOverrides vm)) as [o|] eqn:Ho;
      [rewrite (Hnoexact o eq_refl); reflexivity | reflexivity]. }
  rewrite Hrest; clear Hrest.
  destruct (getWildcardHealthOverrideLua (ResourceOverrides vm) gvk) as [w u].
  destruct Hw as [Hw1 Hw2].
  split.
  - intros (k & o & Hin & Hg & Hne).
    destruct (String.eqb_spec w "") as [Hz|Hnz].
    + exfalso; exact (Hne (Hw2 Hz k o Hin Hg)).
    + destruct (Hw1 Hnz) as (k' & o' & Hin' & Hg' & Hne' & -> & ->).
      exists k', o'; repeat split; assumption.
  - intros Hnowild.
    assert (Hz : w = "").
    { destruct (String.eqb_spec w "") as [Hz|Hnz]; [exact Hz|].
      destruct (Hw1 Hnz) as (k & o & Hin & Hg & Hne & _).
      exfalso; exact (Hne (Hnowild k o Hin Hg)). }
    subst w. simpl.
    unfold getPredefinedHealthScript.
    split.
    + intros script Hs; rewrite Hs; reflexivity.
    + intros Hnone; rewrite Hnone; simpl.
      unfold getWildcardBuiltInHealthOverrideLua; rewrite (getGlobHealthScriptPaths_ok Hvalid).
      pose proof (StronglySorted_merge_sort String.le wildcardDirs) as Hsorted.
      pose proof (merge_sort_Permutation String.le wildcardDirs) as Hperm.
      split.
      * intros g Hg Hm Hmin.
        destruct (firstMatchingGlob (GetConfigMapKey gvk) (merge_sort String.le wildcardDirs))
          as [g0|] eqn:Hf.
        -- destruct (firstMatchingGlob_Some _ _ _ Hsorted Hf) as (Hin0 & Hm0 & Hmin0).
           assert (Hin0' : In g0 wildcardDirs).
           { eapply Permutation_in; [exact Hperm | exact Hin0]. }
           assert (Heq : g0 = g).
           { apply (anti_symm String.le).
             - apply Hmin0; [eapply Permutation_in; [symmetry; exact Hperm | exact Hg] | exact Hm].
             - apply Hmin; assumption. }
           subst g0.
           apply list_elem_of_In in Hin0'; unfold wildcardDirs in Hin0'.
           apply list_elem_of_filter in Hin0' as [Hu Hin0'].
           apply list_elem_of_In, in_map_iff in Hin0' as ([d c] & Hd & Hdc); simpl in Hd; subst d.
           destruct (In_assoc_lookup g c healthCatalog Hdc) as [c' Hc'].
           rewrite Hc'. exists c'; split; [reflexivity|].
           pose proof (assoc_lookup_In _ _ _ Hc') as Hin'.
           destruct (String.eqb_spec c' "") as [Hce|Hcne];
             [exfalso; exact (Hscripts g c' Hin' Hu Hce) | reflexivity].
        -- exfalso.
           pose proof (firstMatchingGlob_None _ _ Hf g) as Hno.
           rewrite Hno in Hm; [discriminate|].
           eapply Permutation_in; [symmetry; exact Hperm | exact Hg].
      * intros Hnomatch.
        destruct (firstMatchingGlob (GetConfigMapKey gvk) (merge_sort String.le wildcardDirs))
          as [g0|] eqn:Hf; [|reflexivity].
        exfalso.
        destruct (firstMatchingGlob_Some _ _ _ Hsorted Hf) as (Hin0 & Hm0 & _).
        rewrite Hnomatch in Hm0; [discriminate|].
        eapply Permutation_in; [exact Hperm | exact Hin0].
Qed.

(* ------------------------------------------------------------------ *)
(** ** The cleaning pass, key by key *)

Fixpoint obj_keys (m : object) : list string :=
  match m with
  | ONil => []
  | OCons k _ rest => k :: obj_keys rest
  end.

Fixpoint obj_in (k : string) (v : value) (m : object) : Prop :=
  match m with
  | ONil => False
  | OCons k' v' rest => (k' = k /\ v' = v) \/ obj_in k v rest
  end.

(** What one iteration of cleanReturnedObj makes of the value at a key
    present in both maps. *)
Definition cleanValue (newValueInterface oldValueInterface : value) : option value :=
  match newValueInterface, oldValueInterface with
  | VObject newValue, VObject oldValue =>
      option_map VObject (cleanReturnedObj newValue oldValue)
  | VArray newValue, VObject oldValue =>
      if Nat.eqb (array_len newValue) 0 then Some (VObject oldValue)
      else Some newValueInterface
  | VArray newValue, VArray oldValue =>
      option_map VArray (cleanReturnedArray newValue oldValue)
  | _, _ => Some newValueInterface
  end.

(** The value at key [k] after cleaning against [obj]. *)
Definition cleanAgainst (obj : object) (k : string) (newValue : value) : option value :=
  match obj_lookup k obj with
  | None => Some newValue
  | Some oldValue => cleanValue newValue oldValue
  end.

(** Applying [f] to every entry of a map, failing if one fails. *)
Fixpoint obj_traverse (f : string -> value -> option value) (m : object) : option object :=
  match m with
  | ONil => Some ONil
  | OCons k v rest =>
      match f k v, obj_traverse f rest with
      | Some v', Some rest' => Some (OCons k v' rest')
      | _, _ => None
      end
  end.

(** Maps all of whose maps (at any depth) have distinct keys, as Go maps
    do. *)
Fixpoint value_wf (v : value) : bool :=
  match v with
  | VArray a => array_wf a
  | VObject m => bool_decide (NoDup (obj_keys m)) && object_wf m
  | _ => true
  end
with array_wf (a : array) : bool :=
  match a with
  | ANil => true
  | ACons v rest => value_wf v && array_wf rest
  end
with object_wf (m : object) : bool :=
  match m with
  | ONil => true
  | OCons _ v rest => value_wf v && object_wf rest
  end.

(** Does some slice, at any depth, hold an empty map as an element? *)
Fixpoint emptyMapInList (v : value) : bool :=
  match v with
  | VArray a => emptyMapInListArr a
  | VObject m => emptyMapInListObj m
  | _ => false
  end
with emptyMapInListArr (a : array) : bool :=
  match a with
  | ANil => false
  | ACons v rest =>
      match v with VObject ONil => true | _ => emptyMapInList v end || emptyMapInListArr rest
  end
with emptyMapInListObj (m : object) : bool :=
  match m with
  | ONil => false
  | OCons _ v rest => emptyMapInList v || emptyMapInListObj rest
  end.

Scheme value_mut := Induction for value Sort Prop
  with array_mut := Induction for array Sort Prop
  with object_mut := Induction for object Sort Prop.

Lemma obj_set_same (key : string) (v : value) (m : object) :
  obj_lookup key m = Some v -> obj_set key v m = m.
Proof.
  induction m as [|k w rest IH]; simpl; [discriminate|].
  destruct (String.eqb_spec k key) as [->|Hne]; [intros [= ->]; reflexivity|].
  intros H; rewrite (IH H); reflexivity.
Qed.

Lemma obj_keys_set (key : string) (v v0 : value) (m : object) :
  obj_lookup key m = Some v0 -> obj_keys (obj_set key v m) = obj_keys m.
Proof.
  induction m as [|k w rest IH]; simpl; [discriminate|].
  destruct (String.eqb_spec k key) as [->|Hne]; [reflexivity|].
  intros H; simpl; rewrite (IH H); reflexivity.
Qed.

Lemma obj_lookup_None_keys (k : string) (m : object) :
  obj_lookup k m = None -> ~ In k (obj_keys m).
Proof.
  induction m as [|k' w rest IH]; simpl; [intros _ []|].
  destruct (String.eqb_spec k' k) as [->|Hne]; [discriminate|].
  intros H [Heq|Hin]; [congruence | exact (IH H Hin)].
Qed.

Lemma obj_lookup_not_in (k : string) (m : object) :
  ~ In k (obj_keys m) -> obj_lookup k m = None.
Proof.
  induction m as [|k' w rest IH]; simpl; [reflexivity|].
  destruct (String.eqb_spec k' k) as [->|Hne]; [intros H; exfalso; apply H; left; reflexivity|].
  intros H; apply IH; intros Hin; apply H; right; exact Hin.
Qed.

Lemma obj_in_lookup (k : string) (v : value) (m : object) :
  NoDup (obj_keys m) -> obj_in k v m -> obj_lookup k m = Some v.
Proof.
  induction m as [|k' w rest IH]; simpl; [intros _ []|].
  intros Hnd; apply NoDup_cons in Hnd as [Hnin Hnd].
  destruct (String.eqb_spec k' k) as [->|Hne].
  - intros [[_ ->]|Hin]; [reflexivity|].
    exfalso; apply Hnin, list_elem_of_In.
    clear IH Hnd Hnin; induction rest as [|k'' w' rest' IH']; simpl in *; [contradiction|].
    destruct Hin as [[-> _]|Hin]; [left; reflexivity | right; exact (IH' Hin)].
  - intros [[-> _]|Hin]; [contradiction | exact (IH Hnd Hin)].
Qed.

Lemma obj_traverse_ext (f g : string -> value -> option value) (m : object) :
  (forall k v, In k (obj_keys m) -> f k v = g k v) ->
  obj_traverse f m = obj_traverse g m.
Proof.
  induction m as [|k v rest IH]; simpl; [reflexivity|].
  intros H. rewrite (H k v (or_introl eq_refl)).
  rewrite IH by (intros k' v' Hin; apply H; right; exact Hin). reflexivity.
Qed.

Lemma obj_traverse_id (m : object) :
  obj_traverse (fun _ v => Some v) m = Some m.
Proof. induction m as [|k v rest IH]; simpl; [reflexivity | now rewrite IH]. Qed.

Lemma obj_traverse_keys (f : string -> value -> option value) (m r : object) :
  obj_traverse f m = Some r -> obj_keys r = obj_keys m.
Proof.
  revert r; induction m as [|k v rest IH]; intros r; simpl; [intros [= <-]; reflexivity|].
  destruct (f k v); [|discriminate].
  destruct (obj_traverse f rest) as [rest'|] eqn:Hr; [|discriminate].
  intros [= <-]; simpl; rewrite (IH rest' eq_refl); reflexivity.
Qed.

Lemma obj_traverse_None (f : string -> value -> option value) (key : string) (nv : value)
    (m : object) :
  obj_lookup key m = Some nv -> f key nv = None -> obj_traverse f m = None.
Proof.
  induction m as [|k v rest IH]; simpl; [discriminate|].
  destruct (String.eqb_spec k key) as [->|Hne].
  - intros [= ->] Hf; rewrite Hf; reflexivity.
  - intros Hl Hf; rewrite (IH Hl Hf); destruct (f k v); reflexivity.
Qed.

Lemma obj_traverse_set (f g : string -> value -> option value) (key : string)
    (nv c : value) (m : object) :
  NoDup (obj_keys m) -> obj_lookup key m = Some nv ->
  f key nv = Some c -> g key c = Some c ->
  (forall k v, k <> key -> g k v = f k v) ->
  obj_traverse g (obj_set key c m) = obj_traverse f m.
Proof.
  intros Hnd Hl Hf Hg Hfg; induction m as [|k v rest IH]; simpl in *; [discriminate|].
  apply NoDup_cons in Hnd as [Hnin Hnd].
  destruct (String.eqb_spec k key) as [->|Hne].
  - injection Hl as ->. simpl. rewrite Hg, Hf.
    rewrite (obj_traverse_ext g f); [reflexivity|].
    intros k' v' Hin; apply Hfg; intros ->; apply Hnin, list_elem_of_In, Hin.
  - simpl. rewrite (Hfg k v Hne), (IH Hnd Hl). reflexivity.
Qed.

(** One step of cleanReturnedObj, in terms of [cleanValue]. *)
Lemma cleanReturnedObj_cons (newObj : object) (key : string) (oldValue : value)
    (rest : object) :
  cleanReturnedObj newObj (OCons key oldValue rest) =
  match obj_lookup key newObj with
  | None => cleanReturnedObj newObj rest
  | Some newValue =>
      match cleanValue newValue oldValue with
      | None => None
      | Some c => cleanReturnedObj (obj_set key c newObj) rest
      end
  end.
Proof.
  simpl. destruct (obj_lookup key newObj) as [nv|] eqn:Hl; [|reflexivity].
  destruct nv as [| | | |na|nm]; destruct oldValue as [| | | |oa|om]; simpl;
    try (rewrite (obj_set_same _ _ _ Hl); reflexivity).
  - destruct (cleanReturnedArray na oa); reflexivity.
  - destruct (Nat.eqb (array_len na) 0); [reflexivity|].
    rewrite (obj_set_same _ _ _ Hl); reflexivity.
  - destruct (cleanReturnedObj nm om); reflexivity.
Qed.

Lemma cleanReturnedObj_traverse (obj : object) :
  forall newObj, NoDup (obj_keys obj) -> NoDup (obj_keys newObj) ->
  cleanReturnedObj newObj obj = obj_traverse (cleanAgainst obj) newObj.
Proof.
  induction obj as [|key ov rest IH]; intros newObj Hnd Hndn.
  - simpl. rewrite <- (obj_traverse_id newObj) at 1.
    apply obj_traverse_ext; reflexivity.
  - apply NoDup_cons in Hnd as [Hnin Hnd].
    assert (Hrest : forall k, k <> key -> cleanAgainst rest k = cleanAgainst (OCons key ov rest) k).
    { intros k Hne; unfold cleanAgainst; simpl.
      destruct (String.eqb_spec key k); [congruence | reflexivity]. }
    rewrite cleanReturnedObj_cons.
    destruct (obj_lookup key newObj) as [nv|] eqn:Hl.
    + destruct (cleanValue nv ov) as [c|] eqn:Hc.
      * rewrite IH; [| exact Hnd | rewrite (obj_keys_set _ _ _ _ Hl); exact Hndn].
        apply obj_traverse_set with nv; [exact Hndn | exact Hl | | |].
        -- unfold cleanAgainst; simpl; rewrite String.eqb_refl; exact Hc.
        -- unfold cleanAgainst.
           rewrite obj_lookup_not_in; [reflexivity|].
           intros Hin; apply Hnin, list_elem_of_In, Hin.
        -- intros k v Hne; rewrite (Hrest k Hne); reflexivity.
      * symmetry; apply obj_traverse_None with key nv; [exact Hl|].
        unfold cleanAgainst; simpl; rewrite String.eqb_refl; exact Hc.
    + rewrite IH by assumption.
      apply obj_traverse_ext; intros k v Hin.
      rewrite (Hrest k); [reflexivity|].
      intros ->; exact (obj_lookup_None_keys _ _ Hl Hin).
Qed.

Lemma luaRoundTripObj_keys (m : object) : obj_keys (luaRoundTripObj m) = obj_keys m.
Proof. induction m as [|k v rest IH]; simpl; [reflexivity | now rewrite IH]. Qed.

Lemma obj_traverse_roundtrip (m m' : object) :
  (forall k v, obj_in k v m' -> obj_lookup k m = Some v) ->
  (forall k v, obj_in k v m' -> cleanValue (luaRoundTrip v) v = Some v) ->
  obj_traverse (cleanAgainst m) (luaRoundTripObj m') = Some m'.
Proof.
  induction m' as [|k v rest IH]; simpl; [reflexivity|].
  intros Hl Hc. unfold cleanAgainst at 1.
  rewrite (Hl k v (or_introl (conj eq_refl eq_refl))).
  rewrite (Hc k v (or_introl (conj eq_refl eq_refl))).
  rewrite IH; [reflexivity | |]; intros k' v' Hin; [apply Hl | apply (Hc k')]; right; exact Hin.
Qed.

(** The round trip of an unchanged value, cleaned against the value. *)
Lemma cleanReturned_roundtrip :
  forall m, object_wf m = true -> emptyMapInListObj m = false ->
  forall k v, obj_in k v m -> cleanValue (luaRoundTrip v) v = Some v.
Proof.
  apply (object_mut
    (fun v => value_wf v = true -> emptyMapInList v = false ->
              cleanValue (luaRoundTrip v) v = Some v)
    (fun a => array_wf a = true -> emptyMapInListArr a = false ->
              cleanReturnedArray (luaRoundTripArr a) a = Some a)
    (fun m => object_wf m = true -> emptyMapInListObj m = false ->
              forall k v, obj_in k v m -> cleanValue (luaRoundTrip v) v = Some v)).
  - intros; reflexivity.
  - intros; reflexivity.
  - intros; reflexivity.
  - intros; reflexivity.
  - intros a IH Hwf He; simpl in *. rewrite (IH Hwf He); reflexivity.
  - intros m IH Hwf He. destruct m as [|k0 v0 rest0]; [reflexivity|].
    simpl in Hwf, He. apply andb_prop in Hwf as [Hnd Hwf].
    apply bool_decide_eq_true in Hnd.
    change (option_map VObject (cleanReturnedObj (luaRoundTripObj (OCons k0 v0 rest0))
                                                  (OCons k0 v0 rest0))
            = Some (VObject (OCons k0 v0 rest0))).
    rewrite cleanReturnedObj_traverse;
      [| exact Hnd | rewrite luaRoundTripObj_keys; exact Hnd].
    rewrite obj_traverse_roundtrip; [reflexivity | |].
    + intros k v Hin; apply obj_in_lookup; assumption.
    + exact (IH Hwf He).
  - intros _ _; reflexivity.
  - intros v IHv rest IHr Hwf He; simpl in Hwf, He.
    apply andb_prop in Hwf as [Hwv Hwr].
    apply orb_false_elim in He as [Hev Her].
    specialize (IHr Hwr Her).
    destruct v as [| | | |a|m]; simpl; rewrite ?IHr; try reflexivity.
    + assert (Ha : cleanValue (luaRoundTrip (VArray a)) (VArray a) = Some (VArray a))
        by exact (IHv Hwv Hev).
      simpl in Ha. destruct (cleanReturnedArray (luaRoundTripArr a) a); [|discriminate].
      injection Ha as ->. rewrite ?IHr; reflexivity.
    + destruct m as [|k0 v0 rest0]; [discriminate|].
      assert (Hm : cleanValue (luaRoundTrip (VObject (OCons k0 v0 rest0)))
                              (VObject (OCons k0 v0 rest0))
                   = Some (VObject (OCons k0 v0 rest0))) by exact (IHv Hwv Hev).
      change (option_map VObject (cleanReturnedObj (luaRoundTripObj (OCons k0 v0 rest0))
                                                    (OCons k0 v0 rest0))
              = Some (VObject (OCons k0 v0 rest0))) in Hm.
      change (luaRoundTrip (VObject (OCons k0 v0 rest0)))
        with (VObject (luaRoundTripObj (OCons k0 v0 rest0))).
      destruct (cleanReturnedObj (luaRoundTripObj (OCons k0 v0 rest0)) (OCons k0 v0 rest0));
        [|discriminate].
      injection Hm as ->. rewrite ?IHr; reflexivity.
  - intros _ _ k v [].
  - intros k0 v IHv rest IHr Hwf He k v' Hin; simpl in Hwf, He, Hin.
    apply andb_prop in Hwf as [Hwv Hwr].
    apply orb_false_elim in He as [Hev Her].
    destruct Hin as [[_ <-]|Hin]; [exact (IHv Hwv Hev) | exact (IHr Hwr Her k v' Hin)].
Qed.

Lemma cleanReturnedObj_roundtrip (m : object) :
  value_wf (VObject m) = true -> emptyMapInList (VObject m) = false ->
  cleanReturnedObj (luaRoundTripObj m) m = Some m.
Proof.
  simpl; intros Hwf He. apply andb_prop in Hwf as [Hnd Hwf].
  apply bool_decide_eq_true in Hnd.
  rewrite cleanReturnedObj_traverse; [| exact Hnd | rewrite luaRoundTripObj_keys; exact Hnd].
  apply obj_traverse_roundtrip.
  - intros k v Hin; apply obj_in_lookup; assumption.
  - exact (cleanReturned_roundtrip m Hwf He).
Qed.

(** X: cleanReturnedObj works key by key: with the distinct keys of Go
    maps, every key of the new map that the original also has gets its
    value cleaned against the original value, every other key keeps its
    value, and no key is added or removed. *)
Theorem cleanReturnedObj_keywise (newObj obj : object) :
  NoDup (obj_keys obj) -> NoDup (obj_keys newObj) ->
  cleanReturnedObj newObj obj = obj_traverse (cleanAgainst obj) newObj /\
  (forall r, cleanReturnedObj newObj obj = Some r -> obj_keys r = obj_keys newObj).
Proof.
  intros Hnd Hndn. rewrite (cleanReturnedObj_traverse obj newObj Hnd Hndn).
  split; [reflexivity|]. apply obj_traverse_keys.
Qed.


(** The entry [r'] that cleaning makes of [r]. *)
Definition cleanedEntry (obj : object) (r r' : ImpactedResource) : Prop :=
  if String.eqb (K8SOperation r) PatchOperation then
    cleanReturnedObj (UnstructuredObj r) obj = Some (UnstructuredObj r') /\
    K8SOperation r' = K8SOperation r
  else r' = r.



(** X: a health script whose table encodes as a JSON array (the empty
    table among them) yields the zero health status and no error,
    whatever the array holds. *)
Theorem ExecuteHealthLua_array_table_zero (vm : VM) (obj : object) (script : string)
    (a : array) :
  runLua vm obj script = RunOk (LTable (Encoded (VArray a))) ->
  ExecuteHealthLua vm obj script = Ok zeroHealthStatus.
Proof. intros Hrun; unfold ExecuteHealthLua; rewrite Hrun; reflexivity. Qed.

Lemma unmarshalHealthFields_no_status (m : object) :
  (forall k v, obj_in k v m -> json_field_is "status" k = false) ->
  (forall k v, obj_in k v m -> json_field_is "message" k = true ->
     v = VNull \/ exists s, v = VStr s) ->
  forall hs saved, exists msg,
    unmarshalHealthFields m hs saved = (mkHealthStatus (Status hs) msg, saved).
Proof.
  induction m as [|k v rest IH]; intros Hst Hmsg hs saved; simpl.
  - exists (Message hs); destruct hs; reflexivity.
  - rewrite (Hst k v (or_introl (conj eq_refl eq_refl))).
    assert (Hst' : forall k' v', obj_in k' v' rest -> json_field_is "status" k' = false)
      by (intros k' v' Hin; apply (Hst k' v'); right; exact Hin).
    assert (Hmsg' : forall k' v', obj_in k' v' rest -> json_field_is "message" k' = true ->
                      v' = VNull \/ exists s, v' = VStr s)
      by (intros k' v' Hin; apply (Hmsg k' v'); right; exact Hin).
    destruct (json_field_is "message" k) eqn:Hm.
    + destruct (Hmsg k v (or_introl (conj eq_refl eq_refl)) Hm) as [->|[s ->]]; simpl.
      * destruct saved as [g|]; simpl;
          [destruct (IH Hst' Hmsg' (mkHealthStatus (Status hs) (Message hs)) (Some g)) as [msg H']
          |destruct (IH Hst' Hmsg' (mkHealthStatus (Status hs) (Message hs)) None) as [msg H']];
          exists msg; exact H'.
      * destruct saved as [g|]; simpl;
          [destruct (IH Hst' Hmsg' (mkHealthStatus (Status hs) s) (Some g)) as [msg H']
          |destruct (IH Hst' Hmsg' (mkHealthStatus (Status hs) s) None) as [msg H']];
          exists msg; exact H'.
    + destruct saved as [g|]; simpl;
        [destruct (IH Hst' Hmsg' hs (Some g)) as [msg H']
        |destruct (IH Hst' Hmsg' hs None) as [msg H']];
        exists msg; exact H'.
Qed.


(** X: with every wildcard pattern of the catalog valid, the wildcard
    directory list is the catalog's directories that hold the marker [_],
    each once per catalog entry, in sorted order. *)
Theorem getGlobHealthScriptPaths_sorted :
  (forall d c, In (d, c) healthCatalog -> containsUnderscore d = true ->
     validatePattern (replaceUnderscore d) = true) ->
  exists globs, getGlobHealthScriptPaths = Ok globs /\
    StronglySorted String.le globs /\
    Permutation globs (filter (fun d => containsUnderscore d = true) (map fst healthCatalog)).
Proof.
  intros Hv. rewrite (getGlobHealthScriptPaths_ok Hv).
  eexists; split; [reflexivity|]. split.
  - exact (StronglySorted_merge_sort String.le _).
  - exact (merge_sort_Permutation String.le _).
Qed.

Lemma walkHealthScriptDirs_invalid (files : list (string * string)) (d c : string) :
  In (d, c) files -> containsUnderscore d = true ->
  validatePattern (replaceUnderscore d) = false ->
  forall patterns, exists e, walkHealthScriptDirs files patterns = Err e.
Proof.
  induction files as [|[d' c'] files IH]; simpl; [intros []|].
  intros Hin Hd Hv patterns.
  destruct Hin as [Heq|Hin].
  - injection Heq as -> ->. rewrite Hd, Hv; simpl; eexists; reflexivity.
  - destruct (containsUnderscore d'); simpl; [|apply IH; assumption].
    destruct (validatePattern (replaceUnderscore d')); simpl; [apply IH; assumption|].
    eexists; reflexivity.
Qed.

Lemma GetHealthScript_no_override (vm : VM) (gvk : GroupVersionKind) :
  (forall o, assoc_lookup (GetConfigMapKey gvk) (ResourceOverrides vm) = Some o -> HealthLua o = "") ->
  (forall k o, In (k, o) (ResourceOverrides vm) -> globMatch k (GetConfigMapKey gvk) = true ->
     HealthLua o = "") ->
  GetHealthScript vm gvk =
    match getPredefinedHealthScript (GetConfigMapKey gvk) with
    | Ok builtInScript => Ok (builtInScript, true)
    | Err err =>
        if decide (err = errScriptDoesNotExist) then
          match getWildcardBuiltInHealthOverrideLua (GetConfigMapKey gvk) with
          | Err err' => Err (Wrapped "error while fetching built-in health script" err')
          | Ok builtInScript =>
              if negb (String.eqb builtInScript "") then Ok (builtInScript, true)
              else Ok ("", false)
          end
        else Err err
    end.
Proof.
  intros Hnoexact Hnowild.
  pose proof (getWildcardHealthOverrideLua_spec (ResourceOverrides vm) gvk) as Hw.
  cbn zeta in Hw.
  unfold GetHealthScript; cbn zeta.
  assert (Hex : match assoc_lookup (GetConfigMapKey gvk) (ResourceOverrides vm) with
                | Some script => if negb (String.eqb (HealthLua script) "") then Some script else None
                | None => None
                end = None).
  { destruct (assoc_lookup (GetConfigMapKey gvk) (ResourceOverrides vm)) as [o|] eqn:Ho;
      [rewrite (Hnoexact o eq_refl); reflexivity | reflexivity]. }
  rewrite Hex.
  destruct (getWildcardHealthOverrideLua (ResourceOverrides vm) gvk) as [w u].
  destruct Hw as [Hw1 _].
  destruct (String.eqb_spec w "") as [->|Hnz]; [reflexivity|].
  exfalso. destruct (Hw1 Hnz) as (k & o & Hin & Hg & Hne & _).
  exact (Hne (Hnowild k o Hin Hg)).
Qed.


Lemma firstMatchingGlob_none_match (objKey : string) (l : list string) :
  (forall g, In g l -> pathMatchUnvalidated (replaceUnderscore g) objKey = false) ->
  firstMatchingGlob objKey l = None.
Proof.
  induction l as [|g l IH]; simpl; [reflexivity|].
  intros H. rewrite (H g (or_introl eq_refl)).
  apply IH; intros g' Hin; apply H; right; exact Hin.
Qed.

(** X: GetResourceHealth runs the resolved script with the library flag
    that resolution gives: an exact user override with its own flag, an
    exact built-in script with the full library; with no script anywhere
    it returns no status and no error, without running anything. *)
Theorem GetResourceHealth_resolution (ovs : overrides) (obj : object) :
  let key := GetConfigMapKey (objGroupVersionKind obj) in
  (forall o, assoc_lookup key ovs = Some o -> HealthLua o <> "" ->
     GetResourceHealth ovs obj =
       match ExecuteHealthLua (mkVM ovs (UseOpenLibs o)) obj (HealthLua o) with
       | Ok hs => Ok (Some hs)
       | Err e => Err e
       end) /\
  ((forall o, assoc_lookup key ovs = Some o -> HealthLua o = "") ->
   (forall k o, In (k, o) ovs -> globMatch k key = true -> HealthLua o = "") ->
   (forall script, assoc_lookup key healthCatalog = Some script -> script <> "" ->
      GetResourceHealth ovs obj =
        match ExecuteHealthLua (mkVM ovs true) obj script with
        | Ok hs => Ok (Some hs)
        | Err e => Err e
        end) /\
   ((forall d c, In (d, c) healthCatalog -> containsUnderscore d = true ->
       validatePattern (replaceUnderscore d) = true) ->
    assoc_lookup key healthCatalog = None ->
    (forall g, In g wildcardDirs -> pathMatchUnvalidated (replaceUnderscore g) key = false) ->
    GetResourceHealth ovs obj = Ok None)).
Proof.
  cbn zeta. split.
  - intros o Ho Hne. unfold GetResourceHealth, GetHealthScript; cbn zeta; simpl.
    rewrite Ho. destruct (String.eqb_spec (HealthLua o) "") as [He|_]; [contradiction|]. simpl.
    destruct (String.eqb_spec (HealthLua o) "") as [He|_]; [contradiction|]. reflexivity.
  - intros Hnoexact Hnowild.
    pose proof (GetHealthScript_no_override (mkVM ovs false) (objGroupVersionKind obj)
                  Hnoexact Hnowild) as Hres.
    split.
    + intros script Hs Hne. unfold GetResourceHealth; cbn zeta.
      rewrite Hres. unfold getPredefinedHealthScript; rewrite Hs.
      destruct (String.eqb_spec script "") as [He|_]; [contradiction | reflexivity].
    + intros Hv Hcat Hnomatch. unfold GetResourceHealth; cbn zeta.
      rewrite Hres. unfold getPredefinedHealthScript; rewrite Hcat.
      destruct (decide (errScriptDoesNotExist = errScriptDoesNotExist)) as [_|Hne]; [|contradiction].
      unfold getWildcardBuiltInHealthOverrideLua.
      rewrite (getGlobHealthScriptPaths_ok Hv).
      rewrite firstMatchingGlob_none_match; [reflexivity|].
      intros g Hin; apply Hnomatch.
      eapply Permutation_in; [apply (merge_sort_Permutation String.le) | exact Hin].
Qed.

Lemma findActionDefinition_first (actionName : string) (pre post : list ResourceActionDefinition)
    (d : ResourceActionDefinition) :
  Forall (fun d' => DefinitionName d' <> actionName) pre ->
  DefinitionName d = actionName ->
  findActionDefinition actionName (app pre (d :: post)) = Some d.
Proof.
  induction pre as [|d' pre IH]; simpl; intros Hpre Hd.
  - rewrite Hd, String.eqb_refl; reflexivity.
  - apply Forall_cons in Hpre as [Hne Hpre].
    destruct (String.eqb_spec (DefinitionName d') actionName); [contradiction|].
    exact (IH Hpre Hd).
Qed.

Lemma findActionDefinition_none (actionName : string) (defs : list ResourceActionDefinition) :
  Forall (fun d' => DefinitionName d' <> actionName) defs ->
  findActionDefinition actionName defs = None.
Proof.
  induction defs as [|d' defs IH]; simpl; intros H; [reflexivity|].
  apply Forall_cons in H as [Hne H].
  destruct (String.eqb_spec (DefinitionName d') actionName); [contradiction | exact (IH H)].
Qed.

(** X: a named action resolves to the first user definition with that
    name in the override's actions block; with no such definition, to the
    built-in [<key>/actions/<name>] script under that name, or to the
    error errScriptDoesNotExist returned as is; an actions block that
    fails to parse is an error even when a built-in script exists. *)
Theorem GetResourceAction_precedence (vm : VM) (gvk : GroupVersionKind) (actionName : string) :
  let key := GetConfigMapKey gvk in
  (forall o pre d post,
     assoc_lookup key (ResourceOverrides vm) = Some o -> Actions o <> "" ->
     getActionDefinitions o = Ok (app pre (d :: post)) ->
     Forall (fun d' => DefinitionName d' <> actionName) pre ->
     DefinitionName d = actionName ->
     GetResourceAction vm gvk actionName = Ok d) /\
  ((forall o, assoc_lookup key (ResourceOverrides vm) = Some o -> Actions o <> "" ->
      exists defs, getActionDefinitions o = Ok defs /\
        Forall (fun d' => DefinitionName d' <> actionName) defs) ->
   GetResourceAction vm gvk actionName =
     match readActionScript (key +:+ "/actions/" +:+ actionName) with
     | Some actionScript => Ok (mkResourceActionDefinition actionName actionScript)
     | None => Err errScriptDoesNotExist
     end) /\
  (forall o e,
     assoc_lookup key (ResourceOverrides vm) = Some o -> Actions o <> "" ->
     getActionDefinitions o = Err e ->
     GetResourceAction vm gvk actionName = Err e).
Proof.
  cbn zeta. split; [|split].
  - intros o pre d post Ho Ha Hdefs Hpre Hd.
    unfold GetResourceAction; cbn zeta. rewrite Ho.
    destruct (String.eqb_spec (Actions o) "") as [He|_]; [contradiction|]. simpl.
    rewrite Hdefs, (findActionDefinition_first actionName pre post d Hpre Hd). reflexivity.
  - intros Hnone. unfold GetResourceAction, getPredefinedActionScript; cbn zeta.
    destruct (assoc_lookup (GetConfigMapKey gvk) (ResourceOverrides vm)) as [o|] eqn:Ho;
      [|destruct (readActionScript _); reflexivity].
    destruct (String.eqb_spec (Actions o) "") as [He|Hne]; simpl;
      [destruct (readActionScript _); reflexivity|].
    destruct (Hnone o eq_refl Hne) as (defs & Hdefs & Hall).
    rewrite Hdefs, (findActionDefinition_none actionName defs Hall).
    destruct (readActionScript _); reflexivity.
  - intros o e Ho Ha He. unfold GetResourceAction; cbn zeta. rewrite Ho.
    destruct (String.eqb_spec (Actions o) "") as [Hz|_]; [contradiction|]. simpl.
    rewrite He; reflexivity.
Qed.

Lemma discoverActions_app (vm : VM) (obj : object) (pre post : list string) :
  forall acc, discoverActions vm obj (app pre post) acc =
    bind (discoverActions vm obj pre acc) (discoverActions vm obj post).
Proof.
  induction pre as [|s pre IH]; intros acc; simpl; [reflexivity|].
  destruct (runLua vm obj s) as [err|top]; [reflexivity|].
  destruct top as [| | | | | | | |[v|msg]]; try reflexivity.
  destruct (noAvailableActions (jsonEncode v)); [apply IH|].
  destruct (unmarshalActionsMap v) as [m|err]; [|reflexivity].
  destruct (mergeActions m acc) as [acc1|err]; [apply IH | reflexivity].
Qed.

Lemma ExecuteResourceActionDiscovery_nonempty (vm : VM) (obj : object) (scripts : list string) :
  scripts <> [] ->
  ExecuteResourceActionDiscovery vm obj scripts =
    match discoverActions vm obj scripts [] with
    | Err err => Err err
    | Ok availableActionsMap => Ok (map snd availableActionsMap)
    end.
Proof. destruct scripts; [intros H; contradiction | reflexivity]. Qed.

(** X: when an override's actions block replaces the built-in actions, the
    discovery scripts are the user's script alone, even if a built-in one
    exists; when it merges them, the user's script comes first and the
    built-in one after it, so every action the user's script defines is
    discovered with the user's definition. *)
Theorem GetResourceActionDiscovery_user_script_first (vm : VM) (gvk : GroupVersionKind)
    (o : ResourceOverride) (acts : OverrideActions) :
  let key := GetConfigMapKey gvk in
  let builtin := match assoc_lookup key discoveryCatalog with Some b => [b] | None => [] end in
  assoc_lookup key (ResourceOverrides vm) = Some o -> Actions o <> "" ->
  getActions o = Ok acts ->
  (MergeBuiltinActions acts = false ->
     GetResourceActionDiscovery vm gvk = Ok [ActionDiscoveryLua acts]) /\
  (MergeBuiltinActions acts = true ->
     GetResourceActionDiscovery vm gvk = Ok (ActionDiscoveryLua acts :: builtin) /\
     forall obj r m k v,
       ExecuteResourceActionDiscovery vm obj (ActionDiscoveryLua acts :: builtin) = Ok r ->
       scriptTable vm obj (ActionDiscoveryLua acts) = Some m ->
       obj_lookup k m = Some v ->
       exists availableActionsMap d,
         discoverActions vm obj (ActionDiscoveryLua acts :: builtin) [] = Ok availableActionsMap /\
         r = map snd availableActionsMap /\
         contribution k v = Ok d /\ assoc_lookup k availableActionsMap = Some d).
Proof.
  cbn zeta. intros Ho Ha Hacts.
  assert (Hget : GetResourceActionDiscovery vm gvk =
            if negb (MergeBuiltinActions acts) then Ok [ActionDiscoveryLua acts]
            else Ok (ActionDiscoveryLua acts ::
                       match assoc_lookup (GetConfigMapKey gvk) discoveryCatalog with
                       | Some b => [b] | None => [] end)).
  { unfold GetResourceActionDiscovery; cbn zeta. rewrite Ho.
    destruct (String.eqb_spec (Actions o) "") as [Hz|_]; [contradiction|]. simpl.
    rewrite Hacts. destruct (MergeBuiltinActions acts); [|reflexivity]. simpl.
    unfold appendBuiltinDiscovery.
    destruct (assoc_lookup (GetConfigMapKey gvk) discoveryCatalog); reflexivity. }
  rewrite Hget. split; [intros ->; reflexivity|]. intros ->; split; [reflexivity|].
  intros obj r m k v Hr Ht Hl.
  unfold ExecuteResourceActionDiscovery in Hr.
  destruct (discoverActions vm obj _ []) as [acc|err] eqn:Hd; [|discriminate].
  injection Hr as <-.
  destruct (discoverActions_spec vm obj _ [] acc Hd) as [_ Hk].
  destruct (Hk k) as [_ Hnew]. specialize (Hnew eq_refl).
  simpl in Hnew. rewrite Ht, Hl in Hnew.
  destruct Hnew as (d & Hc & Hd').
  exists acc, d; repeat split; assumption.
Qed.


(** X: a discovery script that returns an empty table contributes nothing:
    the discovery gives what it gives without that script, and if it is
    the only script, an empty list and no error. *)
Theorem ExecuteResourceActionDiscovery_empty_table_neutral (vm : VM) (obj : object)
    (pre : list string) (s : string) (post : list string) :
  runLua vm obj s = RunOk (LTable (Encoded (VArray ANil))) ->
  (app pre post <> [] ->
     ExecuteResourceActionDiscovery vm obj (app pre (s :: post))
     = ExecuteResourceActionDiscovery vm obj (app pre post)) /\
  (app pre post = [] ->
     ExecuteResourceActionDiscovery vm obj (app pre (s :: post)) = Ok []).
Proof.
  intros Hs.
  assert (Hskip : forall acc, discoverActions vm obj (s :: post) acc = discoverActions vm obj post acc)
    by (intros acc; simpl; rewrite Hs; reflexivity).
  assert (Hdisc : discoverActions vm obj (app pre (s :: post)) [] =
                  discoverActions vm obj (app pre post) []).
  { rewrite !discoverActions_app.
    destruct (discoverActions vm obj pre []); simpl; [apply Hskip | reflexivity]. }
  rewrite ExecuteResourceActionDiscovery_nonempty by (destruct pre; discriminate).
  split.
  - intros Hne. rewrite (ExecuteResourceActionDiscovery_nonempty vm obj _ Hne), Hdisc.
    reflexivity.
  - intros Hnil. rewrite Hdisc, Hnil; reflexivity.
Qed.

(** X: an action whose earliest entry is a list (an empty Lua table among
    them) is discovered enabled, under its key, with empty display
    fields, without going through the descriptor decoder. *)
Theorem ExecuteResourceActionDiscovery_list_entry_defaults (vm : VM) (obj : object)
    (scripts : list string) (r : list ResourceAction) (k : string) (a : array) :
  ExecuteResourceActionDiscovery vm obj scripts = Ok r ->
  firstDefinition k (map (scriptTable vm obj) scripts) = Some (VArray a) ->
  exists availableActionsMap,
    discoverActions vm obj scripts [] = Ok availableActionsMap /\
    r = map snd availableActionsMap /\
    assoc_lookup k availableActionsMap = Some (mkResourceAction k false "" "").
Proof.
  intros Hr Hf. unfold ExecuteResourceActionDiscovery in Hr.
  destruct scripts as [|s0 rest]; [discriminate|].
  destruct (discoverActions vm obj (s0 :: rest) []) as [acc|err] eqn:Hd; [|discriminate].
  injection Hr as <-.
  destruct (discoverActions_spec vm obj _ [] acc Hd) as [_ Hk].
  destruct (Hk k) as [_ Hnew]. specialize (Hnew eq_refl).
  rewrite Hf in Hnew. destruct Hnew as (d & Hc & Hl).
  unfold contribution in Hc; simpl in Hc. injection Hc as <-.
  exists acc; repeat split; assumption.
Qed.


End Engine.

(** ** C4: health decode failures.
    A health script returning [{status = 42}]: encoding/json fails with a
    type error on the [status] field (no empty aggregate involved), and
    ExecuteHealthLua turns it into a zero HealthStatus without error. *)
Theorem ExecuteHealthLua_number_status_swallowed :
  let sandbox := fun (_ : VM) (_ : object) (_ : string) (_ : list (string * value)) =>
    RunOk (LTable (Encoded (VObject (OCons "status" (VNum 42) ONil)))) in
  unmarshalHealthStatus (VObject (OCons "status" (VNum 42) ONil))
    = Err (UnmarshalTypeError "number" "health.HealthStatusCode" "status") /\
  forall vm obj script, ExecuteHealthLua sandbox vm obj script = Ok zeroHealthStatus.
Proof. split; [reflexivity | intros; reflexivity]. Qed.


(* ------------------------------------------------------------------ *)
(** ** Instances: the theorems at concrete sandboxes and catalogs *)

Definition vm0 : VM := mkVM [] false.

Definition healthTable (status : string) : value :=
  VObject (OCons "status" (VStr status) ONil).

Lemma ExecuteHealthLua_status_code_witness :
  let sandbox := fun (_ : VM) (_ : object) (_ : string) (_ : list (string * value)) =>
    RunOk (LTable (Encoded (healthTable "Bogus"))) in
  runLua sandbox vm0 ONil "" = RunOk (LTable (Encoded (healthTable "Bogus"))) /\
  unmarshalHealthStatus (healthTable "Bogus") = Ok (mkHealthStatus "Bogus" "") /\
  ExecuteHealthLua sandbox vm0 ONil "" = Ok (mkHealthStatus HealthStatusUnknown invalidHealthStatus).
Proof.
  cbn zeta.
  split; [reflexivity|]; split; [reflexivity|].
  destruct (ExecuteHealthLua_status_code (fun _ _ _ _ => RunOk (LTable (Encoded (healthTable "Bogus"))))
              vm0 ONil "" (healthTable "Bogus") (mkHealthStatus "Bogus" "") eq_refl eq_refl)
    as [Hbad _].
  apply Hbad. rewrite <- isValidHealthStatusCode_spec. vm_compute. discriminate.
Defined.

Lemma ExecuteHealthLua_nil_or_wrong_shape_witness :
  let sandbox := fun (_ : VM) (_ : object) (_ : string) (_ : list (string * value)) =>
    RunOk LNil in
  runLua sandbox vm0 ONil "" = RunOk LNil /\
  ExecuteHealthLua sandbox vm0 ONil "" = Ok (mkHealthStatus "" "").
Proof.
  cbn zeta. split; [reflexivity|].
  apply (ExecuteHealthLua_nil_or_wrong_shape _ vm0 ONil "" LNil); reflexivity.
Defined.

Lemma ExecuteResourceAction_format_sniffing_witness :
  let sandbox := fun (_ : VM) (_ : object) (_ : string) (_ : list (string * value)) =>
    RunOk (LTable (Encoded (VArray ANil))) in
  sandbox vm0 ONil "" [] = RunOk (LTable (Encoded (VArray ANil))) /\
  is_aggregate (VArray ANil) = true /\
  ExecuteResourceAction sandbox (fun _ => Ok []) (fun _ => Ok ONil) vm0 ONil "" []
  = UnmarshalToImpactedResources (fun _ => Ok []) "[]".
Proof.
  cbn zeta. split; [reflexivity|]; split; [reflexivity|].
  destruct (ExecuteResourceAction_format_sniffing
              (fun _ _ _ _ => RunOk (LTable (Encoded (VArray ANil))))
              (fun _ => Ok []) (fun _ => Ok ONil) vm0 ONil "" [] (VArray ANil)
              eq_refl eq_refl) as [_ ->].
  reflexivity.
Defined.

Definition discoveryTable (names : list string) : value :=
  VObject (foldr (fun n m => OCons n (VArray ANil) m) ONil names).

Definition discoverySandbox : VM -> object -> string -> list (string * value) -> runResult :=
  fun _ _ script _ =>
    if String.eqb script "a" then RunOk (LTable (Encoded (discoveryTable ["restart"; "pause"])))
    else RunOk (LTable (Encoded (discoveryTable ["restart"; "resume"]))).

Lemma ExecuteResourceActionDiscovery_first_writer_wins_witness :
  ExecuteResourceActionDiscovery discoverySandbox (fun ra _ => Ok ra) vm0 ONil ["a"; "b"]
  = Ok [mkResourceAction "restart" false "" ""; mkResourceAction "pause" false "" "";
        mkResourceAction "resume" false "" ""] /\
  exists availableActionsMap,
    discoverActions discoverySandbox (fun ra _ => Ok ra) vm0 ONil ["a"; "b"] []
      = Ok availableActionsMap /\
    NoDup (map fst availableActionsMap).
Proof.
  split; [reflexivity|].
  destruct (ExecuteResourceActionDiscovery_first_writer_wins discoverySandbox (fun ra _ => Ok ra)
              vm0 ONil ["a"; "b"] _ eq_refl) as (acc & Hacc & _ & Hnd & _).
  exists acc; split; assumption.
Defined.

Lemma ExecuteResourceActionDiscovery_names_permutation_witness :
  Permutation ["a"; "b"] ["b"; "a"] /\
  ExecuteResourceActionDiscovery discoverySandbox (fun ra _ => Ok ra) vm0 ONil ["a"; "b"]
  = Ok [mkResourceAction "restart" false "" ""; mkResourceAction "pause" false "" "";
        mkResourceAction "resume" false "" ""] /\
  ExecuteResourceActionDiscovery discoverySandbox (fun ra _ => Ok ra) vm0 ONil ["b"; "a"]
  = Ok [mkResourceAction "restart" false "" ""; mkResourceAction "resume" false "" "";
        mkResourceAction "pause" false "" ""] /\
  exists acc acc',
    discoverActions discoverySandbox (fun ra _ => Ok ra) vm0 ONil ["a"; "b"] [] = Ok acc /\
    discoverActions discoverySandbox (fun ra _ => Ok ra) vm0 ONil ["b"; "a"] [] = Ok acc' /\
    forall k, In k (map fst acc) <-> In k (map fst acc').
Proof.
  split; [apply perm_swap|]. split; [reflexivity|]. split; [reflexivity|].
  destruct (ExecuteResourceActionDiscovery_names_permutation discoverySandbox (fun ra _ => Ok ra)
              vm0 ONil ["a"; "b"] ["b"; "a"] _ _ (perm_swap _ _ _) eq_refl eq_refl)
    as (acc & acc' & H1 & _ & H2 & _ & Hk).
  exists acc, acc'; repeat split; try assumption; apply Hk.
Defined.

Definition catalog0 : list (string * string) :=
  [("apps/_", "return hs"); ("batch/Job", "return job")].

Lemma GetHealthScript_precedence_witness :
  (forall d c, In (d, c) catalog0 -> containsUnderscore d = true ->
     (fun _ => true) (replaceUnderscore d) = true) /\
  (forall d c, In (d, c) catalog0 -> containsUnderscore d = true -> c <> "") /\
  GetHealthScript catalog0 (fun _ _ => false) (fun p k => String.eqb p "apps/*")
    (fun _ => true) vm0 (mkGVK "apps" "v1" "Deployment")
  = Ok ("return hs", true).
Proof.
  assert (Hv : forall d c, In (d, c) catalog0 -> containsUnderscore d = true ->
             (fun _ : string => true) (replaceUnderscore d) = true) by reflexivity.
  assert (Hs : forall d c, In (d, c) catalog0 -> containsUnderscore d = true -> c <> "").
  { intros d c Hin; simpl in Hin.
    destruct Hin as [Heq|[Heq|[]]]; injection Heq as <- <-; discriminate. }
  split; [exact Hv|]; split; [exact Hs|].
  destruct (GetHealthScript_precedence catalog0 (fun _ _ => false) (fun p k => String.eqb p "apps/*")
              (fun _ => true) vm0 (mkGVK "apps" "v1" "Deployment") Hv Hs) as [_ Hrest].
  destruct Hrest as [_ Hnowild]; [intros o Ho; discriminate Ho|].
  destruct Hnowild as [_ Hbuiltin]; [intros k o []|].
  destruct (Hbuiltin eq_refl) as [Hfirst _].
  destruct (Hfirst "apps/_") as (script & Hscript & Hres).
  - left; reflexivity.
  - reflexivity.
  - intros g' Hin _; simpl in Hin; destruct Hin as [<-|[]]; reflexivity.
  - vm_compute in Hscript; injection Hscript as <-. exact Hres.
Defined.

Definition deploymentObj : object :=
  OCons "spec" (VObject (OCons "strategy" (VObject ONil) ONil))
    (OCons "items" (VArray (ACons (VNum 1) (ACons (VObject (OCons "x" (VNum 2) ONil)) ANil))) ONil).

Lemma cleanReturnedObj_keywise_witness :
  let newObj := OCons "a" (VArray ANil) (OCons "b" (VNum 1) ONil) in
  let obj := OCons "a" (VObject ONil) ONil in
  NoDup (obj_keys obj) /\ NoDup (obj_keys newObj) /\
  cleanReturnedObj newObj obj = obj_traverse (cleanAgainst obj) newObj.
Proof.
  cbn zeta.
  assert (H1 : NoDup (obj_keys (OCons "a" (VObject ONil) ONil)))
    by (apply (proj1 (bool_decide_eq_true _)); vm_compute; reflexivity).
  assert (H2 : NoDup (obj_keys (OCons "a" (VArray ANil) (OCons "b" (VNum 1) ONil))))
    by (apply (proj1 (bool_decide_eq_true _)); vm_compute; reflexivity).
  split; [exact H1|]; split; [exact H2|].
  exact (proj1 (cleanReturnedObj_keywise _ _ H1 H2)).
Defined.



Lemma ExecuteHealthLua_array_table_zero_witness :
  let sandbox := fun (_ : VM) (_ : object) (_ : string) (_ : list (string * value)) =>
    RunOk (LTable (Encoded (VArray ANil))) in
  runLua sandbox vm0 ONil "return {}" = RunOk (LTable (Encoded (VArray ANil))) /\
  ExecuteHealthLua sandbox vm0 ONil "return {}" = Ok zeroHealthStatus.
Proof.
  cbn zeta. split; [reflexivity|].
  apply (ExecuteHealthLua_array_table_zero _ vm0 ONil "return {}" ANil); reflexivity.
Defined.

Definition messageOnly : object := OCons "message" (VStr "ok") ONil.


Lemma getGlobHealthScriptPaths_sorted_witness :
  (forall d c, In (d, c) catalog0 -> containsUnderscore d = true ->
     (fun _ => true) (replaceUnderscore d) = true) /\
  exists globs, getGlobHealthScriptPaths catalog0 (fun _ => true) = Ok globs /\
    StronglySorted String.le globs /\
    Permutation globs (filter (fun d => containsUnderscore d = true) (map fst catalog0)).
Proof.
  assert (Hv : forall d c, In (d, c) catalog0 -> containsUnderscore d = true ->
             (fun _ : string => true) (replaceUnderscore d) = true) by reflexivity.
  split; [exact Hv|].
  exact (getGlobHealthScriptPaths_sorted catalog0 (fun _ => true) Hv).
Defined.


Definition deploymentGVK : GroupVersionKind := mkGVK "apps" "v1" "Deployment".

Definition vmWithActions : VM :=
  mkVM [("apps/Deployment", mkResourceOverride "" false "discovery.lua: user")] false.

Lemma GetResourceActionDiscovery_user_script_first_witness :
  let getActions := fun (_ : ResourceOverride) => Ok (mkOverrideActions "user" true) in
  let discoveryCatalog := [("apps/Deployment", "builtin")] in
  assoc_lookup (GetConfigMapKey deploymentGVK) (ResourceOverrides vmWithActions)
    = Some (mkResourceOverride "" false "discovery.lua: user") /\
  Actions (mkResourceOverride "" false "discovery.lua: user") <> "" /\
  getActions (mkResourceOverride "" false "discovery.lua: user") = Ok (mkOverrideActions "user" true) /\
  GetResourceActionDiscovery getActions discoveryCatalog vmWithActions deploymentGVK
  = Ok ["user"; "builtin"].
Proof.
  cbn zeta. split; [reflexivity|]; split; [discriminate|]; split; [reflexivity|].
  destruct (GetResourceActionDiscovery_user_script_first (fun _ _ _ _ => RunOk LNil)
              (fun ra _ => Ok ra) (fun _ => Ok (mkOverrideActions "user" true))
              [("apps/Deployment", "builtin")] vmWithActions deploymentGVK
              (mkResourceOverride "" false "discovery.lua: user") (mkOverrideActions "user" true)
              eq_refl ltac:(discriminate) eq_refl) as [_ Hmerge].
  exact (proj1 (Hmerge eq_refl)).
Defined.

Definition badScriptSandbox : VM -> object -> string -> list (string * value) -> runResult :=
  fun _ _ script _ =>
    if String.eqb script "bad" then RunOk LNil
    else if String.eqb script "empty" then RunOk (LTable (Encoded (VArray ANil)))
    else RunOk (LTable (Encoded (discoveryTable ["restart"]))).


Lemma ExecuteResourceActionDiscovery_empty_table_neutral_witness :
  runLua badScriptSandbox vm0 ONil "empty" = RunOk (LTable (Encoded (VArray ANil))) /\
  ExecuteResourceActionDiscovery badScriptSandbox (fun ra _ => Ok ra) vm0 ONil ["a"; "empty"]
  = ExecuteResourceActionDiscovery badScriptSandbox (fun ra _ => Ok ra) vm0 ONil ["a"].
Proof.
  split; [reflexivity|].
  destruct (ExecuteResourceActionDiscovery_empty_table_neutral badScriptSandbox (fun ra _ => Ok ra)
              vm0 ONil ["a"] "empty" [] eq_refl) as [Hne _].
  apply Hne; discriminate.
Defined.

Lemma ExecuteResourceActionDiscovery_list_entry_defaults_witness :
  ExecuteResourceActionDiscovery discoverySandbox (fun ra _ => Ok ra) vm0 ONil ["a"; "b"]
  = Ok [mkResourceAction "restart" false "" ""; mkResourceAction "pause" false "" "";
        mkResourceAction "resume" false "" ""] /\
  firstDefinition "pause" (map (scriptTable discoverySandbox vm0 ONil) ["a"; "b"])
  = Some (VArray ANil) /\
  exists availableActionsMap,
    discoverActions discoverySandbox (fun ra _ => Ok ra) vm0 ONil ["a"; "b"] []
      = Ok availableActionsMap /\
    assoc_lookup "pause" availableActionsMap = Some (mkResourceAction "pause" false "" "").
Proof.
  split; [reflexivity|]; split; [reflexivity|].
  destruct (ExecuteResourceActionDiscovery_list_entry_defaults discoverySandbox (fun ra _ => Ok ra)
              vm0 ONil ["a"; "b"] _ "pause" ANil eq_refl eq_refl) as (acc & Hd & _ & Hl).
  exists acc; split; assumption.
Defined.

